(** * plex_logos: artist-logo synchronisation, a shallow embedding

    The development follows [src/plex_logos.py]:

    - [sanitize], the folder-name rule;
    - the MusicBrainz-id extraction of the main loop;
    - [get_logo], the art resolver;
    - [process_image], the image normaliser;
    - the per-artist body of the main loop and the loop itself.

    Conventions.  A Python [str] is a [string] whose characters are the
    code points below 256.  Python integers are [Z] (image geometry, which
    is never negative, is [nat]).  The similarity score of rapidfuzz is a
    finite float between 0 and 100, read as a rational [Q]; its comparison
    with the integer threshold is exact in Python and in [Q] alike.
    Collaborators outside the repository (rapidfuzz, requests, PIL, plexapi,
    the operating system) are not re-implemented: what they compute is a
    member of the class [Runtime], and what they answer during the
    processing of one artist is the artist's [oracle]. *)

From Stdlib Require Import Ascii QArith.
From stdpp Require Import base tactics option list strings gmap pretty.

Close Scope Q_scope.
Set Warnings "-register-all".
Local Open Scope Z_scope.

(** ** Strings *)

Module Str.

(** The nine characters of the pattern's class: backslash, slash, star,
    question mark, colon, double quote (code 34), the two angle brackets
    and the bar. *)
Definition illegal_chars : list ascii :=
  [ "\"%char; "/"%char; "*"%char; "?"%char; ":"%char; ascii_of_nat 34;
    "<"%char; ">"%char; "|"%char ].

Definition in_class (cls : list ascii) (c : ascii) : bool :=
  bool_decide (c ∈ cls).

(** [re.sub(cls, repl, s)] for a pattern that is one character class: the
    scan replaces every character of the class by [repl] and copies the
    others. *)
Fixpoint re_sub_class (cls : list ascii) (repl : string) (s : string) : string :=
  match s with
  | EmptyString => EmptyString
  | String c rest =>
      if in_class cls c then repl +:+ re_sub_class cls repl rest
      else String c (re_sub_class cls repl rest)
  end.

(** [str.isspace] on the code points below 256: TAB..CR, FS..US, SPACE,
    NEL (0x85) and NBSP (0xA0). *)
Definition is_space (c : ascii) : bool :=
  let n := nat_of_ascii c in
  ((9 <=? n) && (n <=? 13) || (28 <=? n) && (n <=? 32)
   || (n =? 133) || (n =? 160))%nat.

Fixpoint lstrip (s : string) : string :=
  match s with
  | EmptyString => EmptyString
  | String c rest => if is_space c then lstrip rest else s
  end.

Fixpoint rstrip (s : string) : string :=
  match s with
  | EmptyString => EmptyString
  | String c rest =>
      match rstrip rest with
      | EmptyString => if is_space c then EmptyString else String c EmptyString
      | r => String c r
      end
  end.

(** [s.strip()] *)
Definition strip (s : string) : string := rstrip (lstrip s).

(** [s.startswith(p)] *)
Fixpoint startswith (p s : string) : bool :=
  match p, s with
  | EmptyString, _ => true
  | String a p', String b s' => bool_decide (a = b) && startswith p' s'
  | String _ _, EmptyString => false
  end.

(** [p in s] *)
Fixpoint contains (p s : string) : bool :=
  startswith p s ||
  match s with
  | EmptyString => false
  | String _ rest => contains p rest
  end.

(** [s.endswith(p)]: some suffix of [s] is [p]. *)
Fixpoint endswith (p s : string) : bool :=
  bool_decide (s = p) ||
  match s with
  | EmptyString => false
  | String _ rest => endswith p rest
  end.

Fixpoint drop (n : nat) (s : string) : string :=
  match n, s with
  | O, _ => s
  | S n', String _ rest => drop n' rest
  | S _, EmptyString => EmptyString
  end.

(** [s.split(sep)] for a non-empty separator: the pieces between the
    occurrences of [sep], found from the left.  [cur] is the piece being
    read; [fuel] bounds the scan, and one more than the length of [s] is
    enough of it ([split_go_last] below does not depend on more). *)
Fixpoint split_go (fuel : nat) (sep : string) (cur : string) (s : string)
  : list string :=
  match fuel with
  | O => [cur +:+ s]
  | S fuel' =>
      match s with
      | EmptyString => [cur]
      | String c rest =>
          if startswith sep s
          then cur :: split_go fuel' sep EmptyString (drop (String.length sep) s)
          else split_go fuel' sep (cur +:+ String c EmptyString) rest
      end
  end.

Definition split (sep s : string) : list string :=
  split_go (S (String.length s)) sep EmptyString s.

(** [l[-1]] on the list a split returns (never empty). *)
Definition last_piece (l : list string) : string := default EmptyString (last l).

(** [posixpath.join(a, b)] *)
Definition path_join (a b : string) : string :=
  if startswith "/" b then b
  else if bool_decide (a = EmptyString) || endswith "/" a then a +:+ b
  else a +:+ "/" +:+ b.

(** The characters of a string, and the strings made of whitespace. *)
Definition chars (s : string) : list ascii := String.list_ascii_of_string s.

Definition all_space (s : string) : Prop :=
  Forall (fun c => is_space c = true) (chars s).

(** No whitespace at either end. *)
Definition trimmed (s : string) : Prop :=
  (forall c, head (chars s) = Some c -> is_space c = false) /\
  (forall c, last (chars s) = Some c -> is_space c = false).

End Str.

(** [sanitize(name)] *)
Definition sanitize (name : string) : string :=
  Str.strip (Str.re_sub_class Str.illegal_chars "" name).

(** ** Python values, exceptions and the collaborators *)

(** A float as the JSON decoder may produce it. *)
Inductive pyfloat :=
| FFinite (q : Q)
| FInf (negative : bool)
| FNaN.

(** The values [res.json()] produces.  A dict is its list of items; a key
    is looked up from the front. *)
Inductive pyval :=
| PNone
| PBool (b : bool)
| PInt (n : Z)
| PFloat (f : pyfloat)
| PStr (s : string)
| PList (l : list pyval)
| PDict (d : list (string * pyval)).

(** Exceptions, all of them instances of [Exception].  The first four are
    raised by the interpreter on a value of the wrong shape, [HTTPError] by
    [raise_for_status], and [Raised msg] inside a collaborator, [msg] being
    its [str]. *)
Inductive exn :=
| AttributeError (v : pyval) (attr : string)
| KeyError (key : pyval)
| IndexError (v : pyval)
| TypeError (v : pyval)
| HTTPError (status : Z)
| Raised (msg : string).

Definition result (A : Type) : Type := exn + A.

(** [bool(v)] *)
Definition truthy (v : pyval) : bool :=
  match v with
  | PNone => false
  | PBool b => b
  | PInt n => negb (n =? 0)
  | PFloat (FFinite q) => negb (Qeq_bool q 0)
  | PFloat _ => true
  | PStr s => negb (bool_decide (s = EmptyString))
  | PList l => match l with [] => false | _ :: _ => true end
  | PDict d => match d with [] => false | _ :: _ => true end
  end.

(** ** Images *)

Definition rgb : Type := Z * Z * Z.
Definition rgba : Type := Z * Z * Z * Z.

(** A decoded image in mode RGBA: its size and its pixels. *)
Record image := {
  width : nat;
  height : nat;
  getpixel : nat -> nat -> rgba; (* column, row *)
}.

(** An image in mode RGB as its rows, top row first. *)
Abbreviation canvas := (list (list rgb)).

Definition black : rgb := (0, 0, 0).

(** ** What the collaborators compute *)

Class Runtime := {
  (* [fuzz.token_sort_ratio(s1, s2)] of rapidfuzz; the second argument is
     whatever the provider's payload holds under the key name *)
  token_sort_ratio : string -> pyval -> result Q;
  (* [str] of a float *)
  float_str : Q -> string;
  (* [str] of a value that is not a [str] *)
  value_str : pyval -> string;
  (* [str] of an exception other than [Raised] *)
  builtin_exn_str : exn -> string;
  (* [Image.open(BytesIO(content)).convert("RGBA")] of PIL *)
  image_open : list Byte.byte -> result image;
  (* PIL's blend of one source pixel, by its alpha, over one pixel of the
     destination *)
  blend : rgba -> rgb -> rgb;
}.

(** [str(e)] *)
Definition exn_str `{Runtime} (e : exn) : string :=
  match e with
  | Raised msg => msg
  | _ => builtin_exn_str e
  end.

(** [f"{v}"] *)
Definition format_value `{Runtime} (v : pyval) : string :=
  match v with
  | PStr s => s
  | _ => value_str v
  end.

(** ** Configuration, statistics, events *)

Record config := {
  FANART_API_KEY : option string;
  UPDATE_PLEX : bool;
  FORCE_REFRESH : bool;
  FUZZY_THRESHOLD : Z;
}.

Definition BASE_OUTPUT_DIR : string := "/app/ArtistLogos".

(** The dict [stats]. *)
Record Stats := {
  total_scanned : Z;
  already_exists_skipped : Z;
  new_downloads : Z;
  plex_posters_updated : Z;
  not_found_list : list string;
  errors : Z;
}.

Definition stats0 : Stats :=
  {| total_scanned := 0; already_exists_skipped := 0; new_downloads := 0;
     plex_posters_updated := 0; not_found_list := []; errors := 0 |}.

Inductive level := LvInfo | LvWarning | LvError | LvCritical.

(** The log lines of the main loop and of [process_image], by their
    format and the values formatted into it. *)
Inductive log_text :=
| MsgSaved (artist_title : string) (result_msg : string)
| MsgSkipping (artist_title : string) (reason : string)
| MsgMissing (artist_title : string) (result_msg : string)
| MsgImageProcessingError (e : exn)
| MsgPlexUploadFailed (artist_title : string) (e : exn)
| MsgCriticalError (artist_title : string) (e : exn).

(** What the program does to the world outside, in order. *)
Inductive event :=
| Sleep                                   (* time.sleep(0.3) *)
| HttpGet (url : pyval) (timeout : Z)     (* requests.get(url, timeout=..) *)
| Makedirs (path : string)                (* os.makedirs(path, exist_ok=True) *)
| SaveJpeg (path : string) (img : canvas) (quality : Z)
| UploadPoster (artist_title : string) (filepath : string)
| Log (lv : level) (text : log_text).

Record response := {
  status_code : Z;
  json : result pyval;        (* res.json() *)
  content : list Byte.byte;   (* res.content *)
}.

(** What the outside answers while one artist is processed; each call is
    made at most once per artist. *)
Record oracle := {
  fanart_reply : result response;   (* the provider lookup *)
  makedirs_reply : result unit;
  image_reply : result response;    (* the download of the asset *)
  save_reply : result unit;
  save_leaves_file : bool;          (* a failed save left a file behind *)
  upload_reply : result unit;
}.

(** An entry of the library: [artist.title] and the [id] of each of
    [artist.guids]. *)
Record artist := {
  title : string;
  guids : list string;
}.

(** ** State and exceptions *)

Record world := {
  stats : Stats;
  fs : gset string;        (* the paths that exist *)
  trace : list event;      (* the events so far, oldest first *)
}.

Definition M (A : Type) : Type := world -> world * result A.

Definition ret {A} (a : A) : M A := fun w => (w, inr a).

Definition bind {A B} (m : M A) (k : A -> M B) : M B :=
  fun w =>
    match m w with
    | (w', inr a) => k a w'
    | (w', inl e) => (w', inl e)
    end.

Definition raise {A} (e : exn) : M A := fun w => (w, inl e).

Definition lift {A} (r : result A) : M A := fun w => (w, r).

(** [try: body / except Exception as e: handler] *)
Definition try_except {A} (body : M A) (handler : exn -> M A) : M A :=
  fun w =>
    match body w with
    | (w', inl e) => handler e w'
    | (w', inr a) => (w', inr a)
    end.

Notation "x <~ m ;; k" := (bind m (fun x => k))
  (at level 20, m at level 99, k at level 200, only parsing).
Notation "'call' m ;; k" := (bind m (fun _ => k))
  (at level 20, m at level 99, k at level 200, only parsing).

(** The world after some more events. *)
Definition add_events (evs : list event) (w : world) : world :=
  {| stats := stats w; fs := fs w; trace := trace w ++ evs |}.

Definition emit (e : event) : M unit :=
  fun w => (add_events [e] w, inr tt).

(** The world after an update of [stats]. *)
Definition with_stats (f : Stats -> Stats) (w : world) : world :=
  {| stats := f (stats w); fs := fs w; trace := trace w |}.

Definition update_stats (f : Stats -> Stats) : M unit :=
  fun w => (with_stats f w, inr tt).

(** The world in which the path [p] exists. *)
Definition with_path (p : string) (w : world) : world :=
  {| stats := stats w; fs := {[p]} ∪ fs w; trace := trace w |}.

Definition fs_add (p : string) : M unit :=
  fun w => (with_path p w, inr tt).

(** The events that create a directory or write a file below the output
    root. *)
Definition is_fs_write (e : event) : bool :=
  match e with
  | Makedirs _ | SaveJpeg _ _ _ => true
  | _ => false
  end.

(** From [w] to [w'] no path appeared and no event created a directory or
    wrote a file. *)
Definition no_fs_effect (w w' : world) : Prop :=
  fs w' = fs w
  /\ exists evs, trace w' = trace w ++ evs
               /\ Forall (fun e => is_fs_write e = false) evs.

(** The requests sent over the network. *)
Definition is_http (e : event) : bool :=
  match e with
  | HttpGet _ _ => true
  | _ => false
  end.

(** [os.path.exists(p)] *)
Definition path_exists (p : string) : M bool :=
  fun w => (w, inr (bool_decide (p ∈ fs w))).

(** [for x in xs: body x] *)
Fixpoint for_each {A} (xs : list A) (body : A -> M unit) : M unit :=
  match xs with
  | [] => ret tt
  | x :: rest => call body x ;; for_each rest body
  end.

(** The updates of [stats]. *)
Definition incr_skipped (s : Stats) : Stats :=
  {| total_scanned := total_scanned s;
     already_exists_skipped := already_exists_skipped s + 1;
     new_downloads := new_downloads s;
     plex_posters_updated := plex_posters_updated s;
     not_found_list := not_found_list s; errors := errors s |}.

Definition incr_downloads (s : Stats) : Stats :=
  {| total_scanned := total_scanned s;
     already_exists_skipped := already_exists_skipped s;
     new_downloads := new_downloads s + 1;
     plex_posters_updated := plex_posters_updated s;
     not_found_list := not_found_list s; errors := errors s |}.

Definition incr_posters (s : Stats) : Stats :=
  {| total_scanned := total_scanned s;
     already_exists_skipped := already_exists_skipped s;
     new_downloads := new_downloads s;
     plex_posters_updated := plex_posters_updated s + 1;
     not_found_list := not_found_list s; errors := errors s |}.

Definition incr_errors (s : Stats) : Stats :=
  {| total_scanned := total_scanned s;
     already_exists_skipped := already_exists_skipped s;
     new_downloads := new_downloads s;
     plex_posters_updated := plex_posters_updated s;
     not_found_list := not_found_list s; errors := errors s + 1 |}.

Definition append_not_found (line : string) (s : Stats) : Stats :=
  {| total_scanned := total_scanned s;
     already_exists_skipped := already_exists_skipped s;
     new_downloads := new_downloads s;
     plex_posters_updated := plex_posters_updated s;
     not_found_list := not_found_list s ++ [line]; errors := errors s |}.

Definition set_total_scanned (n : Z) (s : Stats) : Stats :=
  {| total_scanned := n;
     already_exists_skipped := already_exists_skipped s;
     new_downloads := new_downloads s;
     plex_posters_updated := plex_posters_updated s;
     not_found_list := not_found_list s; errors := errors s |}.

(** ** The operations on values the program uses *)

Fixpoint assoc (key : string) (d : list (string * pyval)) : option pyval :=
  match d with
  | [] => None
  | (k, v) :: rest => if bool_decide (k = key) then Some v else assoc key rest
  end.

(** [data.get(key, dflt)] *)
Definition dict_get (data : pyval) (key : string) (dflt : pyval) : result pyval :=
  match data with
  | PDict d => inr (default dflt (assoc key d))
  | v => inl (AttributeError v "get")
  end.

(** [v[0]]; the program only evaluates it on a truthy [v]. *)
Definition getitem_0 (v : pyval) : result pyval :=
  match v with
  | PList (x :: _) => inr x
  | PList [] => inl (IndexError v)
  | PStr (String c _) => inr (PStr (String c EmptyString))
  | PStr EmptyString => inl (IndexError v)
  | PDict _ => inl (KeyError (PInt 0))
  | _ => inl (TypeError v)
  end.

(** [v[key]] for a key that is a [str] *)
Definition getitem_str (v : pyval) (key : string) : result pyval :=
  match v with
  | PDict d =>
      match assoc key d with
      | Some x => inr x
      | None => inl (KeyError (PStr key))
      end
  | _ => inl (TypeError v)
  end.

(** [score < threshold], a float against an int *)
Definition score_lt (score : Q) (threshold : Z) : bool :=
  negb (Qle_bool (inject_Z threshold) score).

(** [f"{key}"] of the API key, which is [None] when the variable is unset *)
Definition format_opt (o : option string) : string :=
  match o with
  | Some s => s
  | None => "None"
  end.

(** [requests.get(url, timeout=t)]: the call is recorded, the reply is the
    oracle's. *)
Definition requests_get (url : pyval) (timeout : Z) (reply : result response)
  : M response :=
  call emit (HttpGet url timeout) ;; lift reply.

(** [res.raise_for_status()] *)
Definition raise_for_status (res : response) : M unit :=
  if (400 <=? status_code res) && (status_code res <? 600)
  then raise (HTTPError (status_code res))
  else ret tt.

(** [Image.new('RGB', (w, h), color)] *)
Definition Image_new (w h : nat) (color : rgb) : canvas :=
  replicate h (replicate w color).

(** [c.paste(img, (ox, oy), img)]: inside the box of [img] placed at the
    offset, every pixel of [c] becomes the blend of the pixel of [img] over
    it; PIL clips the box to [c]. *)
Definition paste `{Runtime} (c : canvas) (img : image) (off : nat * nat) : canvas :=
  let '(ox, oy) := off in
  imap (fun y row =>
    imap (fun x dst =>
      if (ox <=? x)%nat && (x <? ox + width img)%nat
         && (oy <=? y)%nat && (y <? oy + height img)%nat
      then blend (getpixel img (x - ox) (y - oy)) dst
      else dst) row) c.

(** [c.getpixel((x, y))], where there is such a pixel *)
Definition canvas_get (c : canvas) (x y : nat) : option rgb :=
  match c !! y with
  | Some row => row !! x
  | None => None
  end.

(** [side = max(img.size)] *)
Definition side_of (img : image) : nat := Nat.max (width img) (height img).

(** [offset = ((side - img.width) // 2, (side - img.height) // 2)] *)
Definition offset_of (img : image) : nat * nat :=
  ((side_of img - width img) / 2, (side_of img - height img) / 2)%nat.

(** Lines 92-97 of [process_image]: the square canvas for [img]. *)
Definition square_canvas `{Runtime} (img : image) : canvas :=
  let side := side_of img in
  let c := Image_new side side black in
  let offset := offset_of img in
  paste c img offset.

(** The pixel [(x, y)] of the canvas lies in the box the image [img] is
    pasted into. *)
Definition in_box (img : image) (x y : nat) : bool :=
  ((offset_of img).1 <=? x)%nat && (x <? (offset_of img).1 + width img)%nat
  && ((offset_of img).2 <=? y)%nat && (y <? (offset_of img).2 + height img)%nat.

(** The main loop's
    [next((g.id.split('://')[-1] for g in artist.guids if 'mbid' in g.id), None)] *)
Fixpoint next_mbid (gs : list string) : option string :=
  match gs with
  | [] => None
  | g :: rest =>
      if Str.contains "mbid" g
      then Some (Str.last_piece (Str.split "://" g))
      else next_mbid rest
  end.

(** The identifier resolver as the specification words it, for comparison
    with [next_mbid]: the scheme component of an identifier is what stands
    before its first separator (an identifier without separator has none),
    and the first identifier whose scheme component holds the marker is
    returned with its prefix stripped. *)
Definition scheme_component (g : string) : string :=
  match Str.split "://" g with
  | scheme :: _ :: _ => scheme
  | _ => EmptyString
  end.

Fixpoint spec_resolve_id (gs : list string) : option string :=
  match gs with
  | [] => None
  | g :: rest =>
      if Str.contains "mbid" (scheme_component g)
      then Some (Str.last_piece (Str.split "://" g))
      else spec_resolve_id rest
  end.

Section Program.
Context `{Runtime} (cfg : config).

(** Lines 69-78 of [get_logo]: the asset priority, HD before SD. *)
Definition select_asset (data : pyval) (score : Q) : M (pyval * string) :=
  hd <~ lift (dict_get data "hdmusiclogo" (PList [])) ;;
  sd <~ lift (dict_get data "musiclogo" (PList [])) ;;
  if truthy hd then
    first <~ lift (getitem_0 hd) ;;
    u <~ lift (getitem_str first "url") ;;
    ret (u, "Success (HD) - Match: " +:+ float_str score +:+ "%")
  else if truthy sd then
    first <~ lift (getitem_0 sd) ;;
    u <~ lift (getitem_str first "url") ;;
    ret (u, "Success (SD Fallback) - Match: " +:+ float_str score +:+ "%")
  else
    ret (PNone, "Artist exists on Fanart, but has no Logo assets (only backgrounds/art)").

Definition fanart_url (mbid : string) : string :=
  "https://webservice.fanart.tv/v3/music/" +:+ mbid +:+ "?api_key="
  +:+ format_opt (FANART_API_KEY cfg).

(** The [except] clause of [get_logo]. *)
Definition connection_error (e : exn) : M (pyval * string) :=
  ret (PNone, "Connection Error: " +:+ exn_str e).

(** The [try] block of [get_logo] (lines 57-80). *)
Definition get_logo_try (o : oracle) (url plex_name : string) : M (pyval * string) :=
  res <~ requests_get (PStr url) 10 (fanart_reply o) ;;
  if status_code res =? 404 then
    ret (PNone, "Artist MBID not found in Fanart.tv database")
  else if status_code res =? 200 then
    data <~ lift (json res) ;;
    fanart_name <~ lift (dict_get data "name" (PStr "Unknown")) ;;
    score <~ lift (token_sort_ratio plex_name fanart_name) ;;
    if score_lt score (FUZZY_THRESHOLD cfg) then
      ret (PNone, "Fuzzy Match Failed (Score: " +:+ float_str score
                  +:+ ", Fanart Name: '" +:+ format_value fanart_name +:+ "')")
    else
      select_asset data score
  else
    ret (PNone, "API Error (Status: " +:+ pretty (status_code res) +:+ ")").

(** [get_logo(mbid, plex_name)] *)
Definition get_logo (o : oracle) (mbid plex_name : string) : M (pyval * string) :=
  call emit Sleep ;;
  let url := fanart_url mbid in
  try_except (get_logo_try o url plex_name) connection_error.

(** The world [get_logo] leaves behind: the pause and the one request
    added to the trace, nothing else touched. *)
Definition after_lookup (mbid : string) (w : world) : world :=
  add_events [Sleep; HttpGet (PStr (fanart_url mbid)) 10] w.

(** [canvas.save(save_path, "JPEG", quality=95)] *)
Definition save_jpeg (o : oracle) (c : canvas) (save_path : string) : M unit :=
  call emit (SaveJpeg save_path c 95) ;;
  match save_reply o with
  | inr _ => fs_add save_path
  | inl e =>
      call (if save_leaves_file o then fs_add save_path else ret tt) ;;
      raise e
  end.

(** [process_image(url, save_path)] *)
Definition process_image (o : oracle) (url : pyval) (save_path : string) : M bool :=
  try_except
    (res <~ requests_get url 15 (image_reply o) ;;
     call raise_for_status res ;;
     img <~ lift (image_open (content res)) ;;
     call save_jpeg o (square_canvas img) save_path ;;
     ret true)
    (fun e =>
       call emit (Log LvError (MsgImageProcessingError e)) ;;
       ret false).

(** [os.makedirs(path, exist_ok=True)] *)
Definition makedirs (o : oracle) (path : string) : M unit :=
  call emit (Makedirs path) ;;
  match makedirs_reply o with
  | inr _ => fs_add path
  | inl e => raise e
  end.

(** [artist.uploadPoster(filepath=path)] *)
Definition uploadPoster (o : oracle) (a : artist) (path : string) : M unit :=
  call emit (UploadPoster (title a) path) ;;
  lift (upload_reply o).

Definition artist_dir (a : artist) : string :=
  Str.path_join BASE_OUTPUT_DIR (sanitize (title a)).

Definition img_path (a : artist) : string :=
  Str.path_join (artist_dir a) "artist.jpg".

(** The condition of the skip logic (line 124). *)
Definition skips (a : artist) (w : world) : bool :=
  bool_decide (img_path a ∈ fs w) && negb (FORCE_REFRESH cfg).

Definition no_id_reason : string := "Plex has no MusicBrainz ID for this artist".

(** The art resolver, asked for the artist [a] in the world [w], returned
    the truthy value [v] (an asset URL) with the diagnostic [d]: [a] was not
    skipped, its identifier [m] is not empty, and line 139 takes the
    branch of a found logo. *)
Definition resolved (a : artist) (o : oracle) (w : world)
    (m : string) (v : pyval) (d : string) : Prop :=
  skips a w = false /\ next_mbid (guids a) = Some m /\ m <> EmptyString
  /\ get_logo o m (title a) w = (after_lookup m w, inr (v, d))
  /\ truthy v = true.

(** The world in which [process_image] starts for a resolved artist. *)
Definition ready_world (a : artist) (m : string) (w : world) : world :=
  with_path (artist_dir a)
    (add_events [Makedirs (artist_dir a)] (after_lookup m w)).

(** The [try] block of the main loop for one artist (lines 119-153). *)
Definition artist_body (a : artist) (o : oracle) : M unit :=
  ex <~ path_exists (img_path a) ;;
  if ex && negb (FORCE_REFRESH cfg) then
    update_stats incr_skipped
  else
    match next_mbid (guids a) with
    | Some (String c m) =>
        r <~ get_logo o (String c m) (title a) ;;
        let '(logo_url, result_msg) := r in
        if truthy logo_url then
          call makedirs o (artist_dir a) ;;
          ok <~ process_image o logo_url (img_path a) ;;
          if ok : bool then
            call emit (Log LvInfo (MsgSaved (title a) result_msg)) ;;
            call update_stats incr_downloads ;;
            if UPDATE_PLEX cfg then
              try_except
                (call uploadPoster o a (img_path a) ;;
                 update_stats incr_posters)
                (fun pe => emit (Log LvError (MsgPlexUploadFailed (title a) pe)))
            else ret tt
          else ret tt
        else
          call update_stats (append_not_found (title a +:+ " | " +:+ result_msg)) ;;
          emit (Log LvWarning (MsgMissing (title a) result_msg))
    | _ =>
        (* [not mbid]: [None] or the empty string *)
        let reason := no_id_reason in
        call update_stats (append_not_found (title a +:+ " | " +:+ reason)) ;;
        emit (Log LvInfo (MsgSkipping (title a) reason))
    end.

(** One iteration of the main loop: the body under its [except]. *)
Definition process_artist (a : artist) (o : oracle) : M unit :=
  try_except (artist_body a o)
    (fun e =>
       call update_stats incr_errors ;;
       emit (Log LvError (MsgCriticalError (title a) e))).

(** The main loop (lines 111 and 117-157) over the artists, each with the
    answers of the outside during its turn. *)
Definition main_loop (artists : list (artist * oracle)) : M unit :=
  call update_stats (set_total_scanned (Z.of_nat (length artists))) ;;
  for_each artists (fun ao => process_artist ao.1 ao.2).

End Program.

(** ** Tallies over a run *)

(** The number of events of a trace that satisfy [p]. *)
Fixpoint count (p : event -> bool) (tr : list event) : nat :=
  match tr with
  | [] => 0
  | e :: rest => (if p e then 1 else 0) + count p rest
  end.

(** The pause of [get_logo] (line 53). *)
Definition is_sleep (e : event) : bool :=
  match e with
  | Sleep => true
  | _ => false
  end.

(** The lookup of [get_logo] (line 57), the one request with a timeout of
    10 seconds. *)
Definition is_lookup (e : event) : bool :=
  match e with
  | HttpGet _ t => t =? 10
  | _ => false
  end.

(** The download of [process_image] (line 87), the one request with a
    timeout of 15 seconds. *)
Definition is_download (e : event) : bool :=
  match e with
  | HttpGet _ t => t =? 15
  | _ => false
  end.

Definition is_upload (e : event) : bool :=
  match e with
  | UploadPoster _ _ => true
  | _ => false
  end.

(** The error line of [process_image] (line 102). *)
Definition is_image_failure (e : event) : bool :=
  match e with
  | Log LvError (MsgImageProcessingError _) => true
  | _ => false
  end.

(** The artists a world accounts for: those skipped, those in the
    not-found list, those downloaded, those counted as errors, and those
    whose image processing failed, which only the log shows. *)
Definition accounted (w : world) : Z :=
  already_exists_skipped (stats w)
  + Z.of_nat (length (not_found_list (stats w)))
  + new_downloads (stats w)
  + errors (stats w)
  + Z.of_nat (count is_image_failure (trace w)).

(** ** Settings read from the environment (lines 17-19) *)

Module Env.

(** [c.lower()] on the code points below 256: the letters A to Z and the
    capital letters of Latin-1 (0xC0 to 0xDE without the multiplication
    sign 0xD7) move up by 32, every other character stays. *)
Definition lower_char (c : ascii) : ascii :=
  let n := nat_of_ascii c in
  if ((65 <=? n) && (n <=? 90)
      || (192 <=? n) && (n <=? 222) && negb (n =? 215))%nat
  then ascii_of_nat (n + 32)
  else c.

(** [s.lower()] *)
Fixpoint lower (s : string) : string :=
  match s with
  | EmptyString => EmptyString
  | String c rest => String (lower_char c) (lower rest)
  end.

(** [os.environ.get(key, dflt)] *)
Definition environ_get (env : gmap string string) (key dflt : string) : string :=
  default dflt (env !! key).

(** [os.environ.get(key, 'False').lower() == 'true'] *)
Definition env_flag (env : gmap string string) (key : string) : bool :=
  bool_decide (lower (environ_get env key "False") = "true").

Definition UPDATE_PLEX_of (env : gmap string string) : bool :=
  env_flag env "UPDATE_PLEX".

Definition FORCE_REFRESH_of (env : gmap string string) : bool :=
  env_flag env "FORCE_REFRESH".

(** [os.environ.get('LIBRARY_NAME', 'Music')] *)
Definition LIBRARY_NAME_of (env : gmap string string) : string :=
  environ_get env "LIBRARY_NAME" "Music".

End Env.

(** ** The report of the artists without logo (lines 161-164) *)

Module Report.

(** The line break, as a character and as the text of that character. *)
Definition nl : ascii := ascii_of_nat 10.

Definition newline : string := String nl EmptyString.

(** [sep.join(l)] *)
Fixpoint join (sep : string) (l : list string) : string :=
  match l with
  | [] => EmptyString
  | x :: rest =>
      match rest with
      | [] => x
      | _ :: _ => x +:+ sep +:+ join sep rest
      end
  end.

(** [s * n] *)
Fixpoint repeat_str (s : string) (n : nat) : string :=
  match n with
  | O => EmptyString
  | S n' => s +:+ repeat_str s n'
  end.

Definition header (timestamp : string) : string :=
  "Artists missing logos as of " +:+ timestamp.

Definition rule : string := repeat_str "=" 50.

(** What the three [f.write] calls leave in the report. *)
Definition missing_report (timestamp : string) (s : Stats) : string :=
  (header timestamp +:+ newline)
  +:+ (rule +:+ newline)
  +:+ join newline (not_found_list s).

End Report.

(** ** A concrete runtime and concrete inputs, for the examples *)

Module Demo.

(** Exact-match scoring stands in for rapidfuzz: 100 for equal names and
    0 otherwise; [None] scores 0 and other values are refused. *)
Definition exact_ratio (s : string) (v : pyval) : result Q :=
  match v with
  | PStr t => inr (if bool_decide (s = t) then inject_Z 100 else inject_Z 0)
  | PNone => inr (inject_Z 0)
  | _ => inl (TypeError v)
  end.

(** PIL's 8-bit blend of a source channel [s] over [d] by the alpha [a]. *)
Definition blend8 (a s d : Z) : Z :=
  let t := d * (255 - a) + s * a + 128 in
  Z.shiftr (Z.shiftr t 8 + t) 8.

Definition blend_rgba (src : rgba) (dst : rgb) : rgb :=
  let '(r, g, b, a) := src in
  let '(dr, dg, db) := dst in
  (blend8 a r dr, blend8 a g dg, blend8 a b db).

(** A white, opaque logo of 100 by 200 pixels. *)
Definition logo : image :=
  {| width := 100; height := 200; getpixel := fun _ _ => (255, 255, 255, 255) |}.

Definition runtime : Runtime :=
  {| token_sort_ratio := exact_ratio;
     float_str := fun q => pretty (Qnum q / Zpos (Qden q)) +:+ ".0";
     value_str := fun _ => "?";
     builtin_exn_str := fun _ => "error";
     image_open := fun _ => inr logo;
     blend := blend_rgba |}.

Definition cfg : config :=
  {| FANART_API_KEY := Some "KEY"; UPDATE_PLEX := true;
     FORCE_REFRESH := false; FUZZY_THRESHOLD := 90 |}.

(** The same with the threshold at 100, the score of an exact match. *)
Definition cfg100 : config :=
  {| FANART_API_KEY := Some "KEY"; UPDATE_PLEX := true;
     FORCE_REFRESH := false; FUZZY_THRESHOLD := 100 |}.

Definition w0 : world := {| stats := stats0; fs := ∅; trace := [] |}.

Definition asset (url : string) : pyval := PDict [("id", PStr "1"); ("url", PStr url)].

(** A provider payload for the artist Foo with one HD and one SD logo. *)
Definition payload_foo : pyval :=
  PDict [("name", PStr "Foo");
         ("hdmusiclogo", PList [asset "http://img/hd.png"]);
         ("musiclogo", PList [asset "http://img/sd.png"])].

(** The same for the artist A/B. *)
Definition payload_a_slash_b : pyval :=
  PDict [("name", PStr "A/B");
         ("hdmusiclogo", PList [asset "http://img/ab.png"])].

Definition payload_sd_only : pyval :=
  PDict [("name", PStr "Foo");
         ("musiclogo", PList [asset "http://img/sd.png"])].

Definition payload_no_logo : pyval :=
  PDict [("name", PStr "Foo"); ("artistbackground", PList [asset "http://img/bg.png"])].

Definition reply (status : Z) (data : pyval) : result response :=
  inr {| status_code := status; json := inr data; content := [] |}.

(** Everything succeeds, and the provider answers [data]. *)
Definition oracle_ok (data : pyval) : oracle :=
  {| fanart_reply := reply 200 data; makedirs_reply := inr tt;
     image_reply := reply 200 PNone; save_reply := inr tt;
     save_leaves_file := false; upload_reply := inr tt |}.

Definition oracle_status (status : Z) : oracle :=
  {| fanart_reply := reply status PNone; makedirs_reply := inr tt;
     image_reply := reply 200 PNone; save_reply := inr tt;
     save_leaves_file := false; upload_reply := inr tt |}.

Definition oracle_offline : oracle :=
  {| fanart_reply := inl (Raised "timed out"); makedirs_reply := inr tt;
     image_reply := inl (Raised "timed out"); save_reply := inr tt;
     save_leaves_file := false; upload_reply := inr tt |}.

(** The asset is found, and then one step of the rest fails. *)
Definition oracle_bad_image : oracle :=
  {| fanart_reply := reply 200 payload_foo; makedirs_reply := inr tt;
     image_reply := reply 404 PNone; save_reply := inr tt;
     save_leaves_file := false; upload_reply := inr tt |}.

Definition oracle_bad_upload : oracle :=
  {| fanart_reply := reply 200 payload_foo; makedirs_reply := inr tt;
     image_reply := reply 200 PNone; save_reply := inr tt;
     save_leaves_file := false; upload_reply := inl (Raised "upload refused") |}.

Definition oracle_bad_makedirs : oracle :=
  {| fanart_reply := reply 200 payload_foo;
     makedirs_reply := inl (Raised "permission denied");
     image_reply := reply 200 PNone; save_reply := inr tt;
     save_leaves_file := false; upload_reply := inr tt |}.

Definition foo : artist := {| title := "Foo"; guids := ["plex://artist/5d07"; "mbid://1234"] |}.
Definition no_id : artist := {| title := "Foo"; guids := ["plex://artist/5d07"] |}.
Definition a_slash_b : artist := {| title := "A/B"; guids := ["mbid://1234"] |}.
Definition ab : artist := {| title := "AB"; guids := ["mbid://5678"] |}.

(** Force-refresh enabled. *)
Definition cfg_force : config :=
  {| FANART_API_KEY := Some "KEY"; UPDATE_PLEX := true;
     FORCE_REFRESH := true; FUZZY_THRESHOLD := 90 |}.

(** Payloads of an unexpected shape: a first HD asset without URL, a
    payload without name, and a first HD asset with an empty URL. *)
Definition payload_no_url : pyval :=
  PDict [("name", PStr "Foo");
         ("hdmusiclogo", PList [PDict [("id", PStr "1")]]);
         ("musiclogo", PList [asset "http://img/sd.png"])].

Definition payload_no_name : pyval :=
  PDict [("hdmusiclogo", PList [asset "http://img/hd.png"])].

Definition payload_empty_url : pyval :=
  PDict [("name", PStr "Foo");
         ("hdmusiclogo", PList [asset ""]);
         ("musiclogo", PList [asset "http://img/sd.png"])].

(** The save fails and leaves a file behind. *)
Definition oracle_bad_save_left : oracle :=
  {| fanart_reply := reply 200 payload_foo; makedirs_reply := inr tt;
     image_reply := reply 200 PNone; save_reply := inl (Raised "disk full");
     save_leaves_file := true; upload_reply := inr tt |}.

Definition foo_image : string := "/app/ArtistLogos/Foo/artist.jpg".

Definition stats_two_missing : Stats :=
  {| total_scanned := 2; already_exists_skipped := 0; new_downloads := 0;
     plex_posters_updated := 0;
     not_found_list := ["Foo | Connection Error: timed out";
                        "Bar | Plex has no MusicBrainz ID for this artist"];
     errors := 0 |}.

End Demo.

(** * Properties *)

(** ** Strings *)

Module StrFacts.
Import Str.

Lemma append_cons c (a b : string) : String c a +:+ b = String c (a +:+ b).
Proof. reflexivity. Qed.

Lemma append_nil_l (s : string) : "" +:+ s = s.
Proof. reflexivity. Qed.

Lemma chars_cons c s : chars (String c s) = c :: chars s.
Proof. reflexivity. Qed.

Lemma chars_app (a b : string) : chars (a +:+ b) = chars a ++ chars b.
Proof.
  induction a as [|c a IH]; [done|].
  by rewrite append_cons, !chars_cons, IH.
Qed.

Lemma chars_inj (a b : string) : chars a = chars b -> a = b.
Proof.
  intros E.
  rewrite <- (String.string_of_list_ascii_of_string a),
          <- (String.string_of_list_ascii_of_string b).
  unfold chars in E. by rewrite E.
Qed.

Lemma append_nil_r (s : string) : s +:+ "" = s.
Proof. induction s as [|c s IH]; [done | by rewrite append_cons, IH]. Qed.

Lemma append_assoc (a b c : string) : (a +:+ b) +:+ c = a +:+ b +:+ c.
Proof. induction a as [|x a IH]; [done | by rewrite !append_cons, IH]. Qed.

Lemma all_space_nil : all_space "".
Proof. constructor. Qed.

Lemma all_space_cons c s : is_space c = true -> all_space s -> all_space (String c s).
Proof. intros; by constructor. Qed.

Lemma all_space_app a b : all_space a -> all_space b -> all_space (a +:+ b).
Proof. unfold all_space. rewrite chars_app, Forall_app. tauto. Qed.

(** [re.sub] with the empty replacement keeps exactly the characters
    outside the class, in their order. *)
Lemma re_sub_class_chars cls s :
  chars (re_sub_class cls "" s) = filter (fun c => c ∉ cls) (chars s).
Proof.
  induction s as [|c s IH]; [done|].
  cbn [re_sub_class]. unfold in_class.
  rewrite chars_cons, filter_cons. case_bool_decide as Hc.
  - rewrite decide_False by tauto. by rewrite append_nil_l.
  - rewrite decide_True by done. by rewrite chars_cons, IH.
Qed.

Lemma lstrip_decomp s : exists l, s = l +:+ lstrip s /\ all_space l.
Proof.
  induction s as [|c s [l [E Hl]]]; cbn [lstrip].
  - exists "". split; [done | apply all_space_nil].
  - destruct (is_space c) eqn:Hc.
    + exists (String c l). split; [by rewrite append_cons, <- E | by apply all_space_cons].
    + exists "". split; [done | apply all_space_nil].
Qed.

Lemma lstrip_head s c : head (chars (lstrip s)) = Some c -> is_space c = false.
Proof.
  induction s as [|x s IH]; cbn [lstrip]; [done|].
  destruct (is_space x) eqn:Hx; [done|].
  rewrite chars_cons. intros [= <-]. done.
Qed.

Lemma rstrip_decomp s : exists r, s = rstrip s +:+ r /\ all_space r.
Proof.
  induction s as [|c s [r [E Hr]]]; cbn [rstrip].
  - exists "". split; [done | apply all_space_nil].
  - destruct (rstrip s) as [|y t] eqn:Ht.
    + rewrite append_nil_l in E. subst r.
      destruct (is_space c) eqn:Hc.
      * exists (String c s). split; [done | by apply all_space_cons].
      * exists s. by split.
    + exists r. split; [by rewrite append_cons, <- E | done].
Qed.

Lemma rstrip_last s c : last (chars (rstrip s)) = Some c -> is_space c = false.
Proof.
  revert c. induction s as [|x s IH]; intros c; cbn [rstrip]; [done|].
  destruct (rstrip s) as [|y t] eqn:Ht.
  - destruct (is_space x) eqn:Hx; [done|]. by intros [= <-].
  - rewrite !chars_cons, last_cons_cons. rewrite <- chars_cons. apply IH.
Qed.

(** [rstrip] keeps the front of a string that does not start with
    whitespace. *)
Lemma rstrip_head s :
  (forall c, head (chars s) = Some c -> is_space c = false) ->
  forall c, head (chars (rstrip s)) = Some c -> is_space c = false.
Proof.
  intros Hs c. destruct s as [|x s]; cbn [rstrip]; [done|].
  destruct (rstrip s) as [|y t].
  - destruct (is_space x) eqn:Hx; [done|]. by intros [= <-].
  - rewrite chars_cons. intros [= <-]. by apply Hs.
Qed.

Lemma strip_decomp s :
  exists l r, s = l +:+ strip s +:+ r /\ all_space l /\ all_space r.
Proof.
  destruct (lstrip_decomp s) as [l [El Hl]].
  destruct (rstrip_decomp (lstrip s)) as [r [Er Hr]].
  exists l, r. unfold strip. by rewrite <- Er.
Qed.

Lemma strip_trimmed s : trimmed (strip s).
Proof.
  split.
  - apply rstrip_head, lstrip_head.
  - apply rstrip_last.
Qed.

Lemma lstrip_space_app l s : all_space l -> lstrip (l +:+ s) = lstrip s.
Proof.
  induction l as [|c l IH]; intros Hl; [done|].
  inversion Hl as [|? ? Hc Hl']; subst.
  rewrite append_cons. cbn [lstrip]. rewrite Hc. by apply IH.
Qed.

Lemma rstrip_all_space r : all_space r -> rstrip r = "".
Proof.
  induction r as [|c r IH]; intros Hr; [done|].
  inversion Hr as [|? ? Hc Hr']; subst.
  cbn [rstrip]. rewrite IH by done. by rewrite Hc.
Qed.

Lemma rstrip_app_space s r : all_space r -> rstrip (s +:+ r) = rstrip s.
Proof.
  intros Hr. induction s as [|c s IH].
  - by rewrite append_nil_l, rstrip_all_space.
  - rewrite append_cons. cbn [rstrip]. by rewrite IH.
Qed.

Lemma lstrip_app_space s r :
  all_space r -> exists r', all_space r' /\ lstrip (s +:+ r) = lstrip s +:+ r'.
Proof.
  intros Hr. induction s as [|c s IH].
  - exists "". split; [apply all_space_nil|].
    rewrite append_nil_l. destruct (lstrip_decomp r) as [l [E Hl]].
    destruct (lstrip r) as [|x t] eqn:Ht; [done|].
    exfalso. pose proof (lstrip_head r x) as Hx. rewrite Ht in Hx.
    specialize (Hx eq_refl).
    rewrite E in Hr. unfold all_space in Hr.
    rewrite chars_app, Forall_app, chars_cons, Forall_cons in Hr.
    destruct Hr as [_ [Hx' _]]. congruence.
  - rewrite append_cons. cbn [lstrip]. destruct (is_space c); [exact IH|].
    exists r. by rewrite append_cons.
Qed.

(** Whitespace around a string does not change what [strip] returns. *)
Lemma strip_pad l s r :
  all_space l -> all_space r -> strip (l +:+ s +:+ r) = strip s.
Proof.
  intros Hl Hr. unfold strip. rewrite lstrip_space_app by done.
  destruct (lstrip_app_space s r Hr) as [r' [Hr' ->]].
  by apply rstrip_app_space.
Qed.

Lemma re_sub_class_app cls a b :
  re_sub_class cls "" (a +:+ b) = re_sub_class cls "" a +:+ re_sub_class cls "" b.
Proof.
  induction a as [|c a IH]; [done|].
  rewrite append_cons. cbn [re_sub_class]. destruct (in_class cls c).
  - by rewrite !append_nil_l.
  - by rewrite append_cons, IH.
Qed.

Lemma space_legal c : is_space c = true -> in_class illegal_chars c = false.
Proof.
  destruct c as [[] [] [] [] [] [] [] []]; vm_compute; congruence.
Qed.

Lemma re_sub_class_space r :
  all_space r -> re_sub_class illegal_chars "" r = r.
Proof.
  induction r as [|c r IH]; intros Hr; [done|].
  inversion Hr as [|? ? Hc Hr']; subst.
  cbn [re_sub_class]. rewrite space_legal by done. by rewrite IH.
Qed.

Lemma startswith_app p t : startswith p (p +:+ t) = true.
Proof.
  induction p as [|c p IH]; [by destruct t|].
  rewrite append_cons. cbn [startswith]. rewrite IH.
  by rewrite bool_decide_eq_true_2.
Qed.

Lemma startswith_inv p s :
  startswith p s = true -> s = p +:+ drop (String.length p) s.
Proof.
  revert s. induction p as [|c p IH]; intros s; [done|].
  destruct s as [|x s]; cbn [startswith]; [done|].
  intros [Hx Hp]%andb_prop. apply bool_decide_eq_true_1 in Hx. subst x.
  rewrite append_cons. cbn [String.length drop]. by rewrite <- IH.
Qed.

Lemma length_append (a b : string) :
  String.length (a +:+ b) = (String.length a + String.length b)%nat.
Proof.
  induction a as [|c a IH]; [done|].
  rewrite append_cons. cbn [String.length]. by rewrite IH.
Qed.

Lemma contains_cons p c s :
  contains p (String c s) = startswith p (String c s) || contains p s.
Proof. reflexivity. Qed.

(** [p in s] holds exactly when [s] is some text, then [p], then more. *)
Lemma contains_spec p s :
  contains p s = true <-> exists a b, s = a +:+ p +:+ b.
Proof.
  split.
  - induction s as [|c s IH].
    + cbn [contains]. rewrite orb_false_r. intros Hp.
      exists "", (drop (String.length p) ""). by apply startswith_inv.
    + rewrite contains_cons. intros [Hp|Hp]%orb_prop.
      * exists "", (drop (String.length p) (String c s)). by apply startswith_inv.
      * destruct (IH Hp) as [a [b ->]]. by exists (String c a), b.
  - intros [a [b ->]]. induction a as [|c a IH].
    + rewrite append_nil_l. destruct (p +:+ b) eqn:E.
      * cbn [contains]. rewrite <- E. by rewrite startswith_app.
      * rewrite contains_cons, <- E. by rewrite startswith_app.
    + rewrite append_cons, contains_cons, IH. apply orb_true_r.
Qed.

(** The last piece of a split: the whole text when the separator does not
    occur in it, and otherwise what follows an occurrence of the separator
    and holds no further one. *)
Lemma split_go_last fuel sep cur s :
  sep <> "" -> (String.length s < fuel)%nat ->
  (contains sep s = false /\ last (split_go fuel sep cur s) = Some (cur +:+ s))
  \/ (exists pre t, s = pre +:+ sep +:+ t /\ contains sep t = false
                   /\ last (split_go fuel sep cur s) = Some t).
Proof.
  intros Hsep. revert cur s.
  induction fuel as [|fuel IH]; intros cur s Hlen; [lia|].
  destruct s as [|c rest].
  - left. cbn [split_go]. rewrite append_nil_r. split; [|done].
    destruct sep; [done | reflexivity].
  - cbn [split_go]. destruct (startswith sep (String c rest)) eqn:Hst.
    + right. pose proof (startswith_inv _ _ Hst) as E.
      set (t0 := drop (String.length sep) (String c rest)) in *.
      assert (String.length t0 < fuel)%nat as Hlt.
      { assert (String.length (String c rest)
                = (String.length sep + String.length t0)%nat) as EL
          by (rewrite E at 1; apply length_append).
        destruct sep as [|x sep']; [done|].
        cbn [String.length] in *. lia. }
      destruct (IH "" t0 Hlt) as [[Hno Hl]|[pre [t [Et [Hno Hl]]]]].
      * exists "", t0. rewrite append_nil_l in *.
        split; [done|]. split; [done|].
        destruct (split_go fuel sep "" t0); [done|]. by rewrite last_cons_cons.
      * exists (sep +:+ pre), t. split; [|split; [done|]].
        -- rewrite E, Et. by rewrite append_assoc.
        -- destruct (split_go fuel sep "" t0); [done|]. by rewrite last_cons_cons.
    + cbn [String.length] in Hlen.
      destruct (IH (cur +:+ String c "") rest ltac:(lia))
        as [[Hno Hl]|[pre [t [Et [Hno Hl]]]]].
      * left. split.
        -- by rewrite contains_cons, Hst, Hno.
        -- rewrite Hl. by rewrite append_assoc.
      * right. exists (String c pre), t. split; [by rewrite append_cons, <- Et|].
        by split.
Qed.

Lemma split_last sep s :
  sep <> "" ->
  (contains sep s = false /\ last_piece (split sep s) = s)
  \/ (exists pre, s = pre +:+ sep +:+ last_piece (split sep s)
                 /\ contains sep (last_piece (split sep s)) = false).
Proof.
  intros Hsep. unfold split, last_piece.
  destruct (split_go_last (S (String.length s)) sep "" s Hsep ltac:(lia))
    as [[Hno ->]|[pre [t [Et [Hno ->]]]]].
  - left. by rewrite append_nil_l.
  - right. exists pre. by split.
Qed.

Lemma lstrip_trimmed_id s :
  (forall c, head (chars s) = Some c -> is_space c = false) -> lstrip s = s.
Proof.
  destruct s as [|c s]; [done|]. intros Hs. cbn [lstrip].
  by rewrite (Hs c eq_refl).
Qed.

Lemma rstrip_trimmed_id s :
  (forall c, last (chars s) = Some c -> is_space c = false) -> rstrip s = s.
Proof.
  induction s as [|c s IH]; [done|]. intros Hs. cbn [rstrip].
  destruct s as [|x t].
  - cbn [rstrip]. by rewrite (Hs c eq_refl).
  - rewrite IH.
    + done.
    + intros y Hy. apply Hs. by rewrite chars_cons, chars_cons, last_cons_cons, <- chars_cons.
Qed.

Lemma strip_trimmed_id s : trimmed s -> strip s = s.
Proof.
  intros [Hh Hl]. unfold strip. rewrite lstrip_trimmed_id by done.
  by apply rstrip_trimmed_id.
Qed.

End StrFacts.

(** ** [sanitize] *)

Lemma sanitize_chars name :
  Str.chars (Str.re_sub_class Str.illegal_chars "" name)
  = filter (fun c => c ∉ Str.illegal_chars) (Str.chars name).
Proof. apply StrFacts.re_sub_class_chars. Qed.

(** Names with the same legal characters have the same sanitized form. *)
Lemma sanitize_same_legal a b :
  filter (fun c => c ∉ Str.illegal_chars) (Str.chars a)
  = filter (fun c => c ∉ Str.illegal_chars) (Str.chars b) ->
  sanitize a = sanitize b.
Proof.
  intros E. unfold sanitize. f_equal. apply StrFacts.chars_inj.
  by rewrite !sanitize_chars.
Qed.

(** Whitespace around a name does not show in its sanitized form. *)
Lemma sanitize_pad l name r :
  Str.all_space l -> Str.all_space r ->
  sanitize (l +:+ name +:+ r) = sanitize name.
Proof.
  intros Hl Hr. unfold sanitize.
  rewrite !StrFacts.re_sub_class_app.
  rewrite (StrFacts.re_sub_class_space l), (StrFacts.re_sub_class_space r) by done.
  by apply StrFacts.strip_pad.
Qed.

(** C7. [sanitize] returns its argument with exactly the nine characters
    backslash, slash, star, question mark, colon, double quote, less-than,
    greater-than and bar removed and the surrounding whitespace trimmed,
    and nothing else changed: [out] is the result for [name] exactly when
    the characters of [name] outside the nine, in their order, are [out]
    between two runs of whitespace and [out] neither starts nor ends with
    whitespace.  The nine characters are given by their codes, and the name
    A/B:C? sanitizes to ABC. *)
Theorem sanitize_removes_and_trims :
  (forall name out : string,
     sanitize name = out <->
     exists l r : string,
       filter (fun c => c ∉ Str.illegal_chars) (Str.chars name)
       = Str.chars (l +:+ out +:+ r)
       /\ Str.all_space l /\ Str.all_space r /\ Str.trimmed out)
  /\ Str.illegal_chars
     = map ascii_of_nat [92; 47; 42; 63; 58; 34; 60; 62; 124]%nat
  /\ sanitize "A/B:C?" = "ABC".
Proof.
  split; [|split; reflexivity].
  intros name out. split.
  - intros <-. unfold sanitize.
    destruct (StrFacts.strip_decomp (Str.re_sub_class Str.illegal_chars "" name))
      as [l [r [E [Hl Hr]]]].
    exists l, r. rewrite <- E, sanitize_chars.
    split; [done|]. split; [done|]. split; [done|].
    apply StrFacts.strip_trimmed.
  - intros [l [r [E [Hl [Hr Ht]]]]]. unfold sanitize.
    rewrite <- sanitize_chars in E. apply StrFacts.chars_inj in E.
    rewrite E, StrFacts.strip_pad by done.
    by apply StrFacts.strip_trimmed_id.
Qed.

(** ** [get_logo] *)

Lemma score_lt_true score thr :
  score_lt score thr = true <-> (score < inject_Z thr)%Q.
Proof.
  unfold score_lt. rewrite negb_true_iff, <- not_true_iff_false, Qle_bool_iff.
  split; [apply Qnot_le_lt | apply Qlt_not_le].
Qed.

Lemma score_lt_false score thr :
  score_lt score thr = false <-> (inject_Z thr <= score)%Q.
Proof. unfold score_lt. by rewrite negb_false_iff, Qle_bool_iff. Qed.

Ltac unfold_m :=
  cbv beta iota zeta delta
    [bind try_except requests_get lift ret raise emit update_stats
     path_exists fs_add connection_error].

Section GetLogoFacts.
Context `{Runtime} (cfg : config).

Lemma add_events_app evs1 evs2 w :
  add_events evs2 (add_events evs1 w) = add_events (evs1 ++ evs2) w.
Proof. unfold add_events; simpl. by rewrite <- app_assoc. Qed.

(** What [get_logo] returns, by the body of its [try]. *)
Lemma get_logo_unfold o mbid plex_name w :
  get_logo cfg o mbid plex_name w =
  match fanart_reply o with
  | inl e => (after_lookup cfg mbid w, inr (PNone, "Connection Error: " +:+ exn_str e))
  | inr res =>
      if status_code res =? 404 then
        (after_lookup cfg mbid w, inr (PNone, "Artist MBID not found in Fanart.tv database"))
      else if status_code res =? 200 then
        match json res with
        | inl e => (after_lookup cfg mbid w, inr (PNone, "Connection Error: " +:+ exn_str e))
        | inr data =>
            match dict_get data "name" (PStr "Unknown") with
            | inl e => (after_lookup cfg mbid w, inr (PNone, "Connection Error: " +:+ exn_str e))
            | inr fanart_name =>
                match token_sort_ratio plex_name fanart_name with
                | inl e => (after_lookup cfg mbid w, inr (PNone, "Connection Error: " +:+ exn_str e))
                | inr score =>
                    if score_lt score (FUZZY_THRESHOLD cfg) then
                      (after_lookup cfg mbid w,
                       inr (PNone, "Fuzzy Match Failed (Score: " +:+ float_str score
                                   +:+ ", Fanart Name: '" +:+ format_value fanart_name +:+ "')"))
                    else
                      try_except (select_asset data score) connection_error
                        (after_lookup cfg mbid w)
                end
            end
        end
      else
        (after_lookup cfg mbid w,
         inr (PNone, "API Error (Status: " +:+ pretty (status_code res) +:+ ")"))
  end.
Proof.
  unfold get_logo, get_logo_try, after_lookup. unfold_m.
  rewrite add_events_app. cbn [app].
  destruct (fanart_reply o) as [e|res]; [done|].
  destruct (status_code res =? 404); [done|].
  destruct (status_code res =? 200); [|done].
  destruct (json res) as [e|data]; [done|].
  destruct (dict_get data "name" (PStr "Unknown")) as [e|fanart_name]; [done|].
  destruct (token_sort_ratio plex_name fanart_name) as [e|score]; [done|].
  destruct (score_lt score (FUZZY_THRESHOLD cfg)); [done|].
  by destruct (select_asset data score _) as [? [?|?]].
Qed.

(** The asset selection never touches the world. *)
Lemma select_asset_world data score w :
  (select_asset data score w).1 = w.
Proof.
  unfold select_asset. unfold_m.
  destruct (dict_get data "hdmusiclogo" _) as [?|hd]; [done|].
  destruct (dict_get data "musiclogo" _) as [?|sd]; [done|].
  destruct (truthy hd).
  - destruct (getitem_0 hd) as [?|a]; [done|].
    by destruct (getitem_str a "url").
  - destruct (truthy sd); [|done].
    destruct (getitem_0 sd) as [?|a]; [done|].
    by destruct (getitem_str a "url").
Qed.

(** [get_logo] returns a pair whatever happens: every exception of its
    body ends in its [except] clause. *)
Lemma get_logo_total o mbid plex_name w :
  exists v diag,
    get_logo cfg o mbid plex_name w = (after_lookup cfg mbid w, inr (v, diag)).
Proof.
  rewrite get_logo_unfold.
  destruct (fanart_reply o) as [e|res]; [by eauto|].
  destruct (status_code res =? 404); [by eauto|].
  destruct (status_code res =? 200); [|by eauto].
  destruct (json res) as [e|data]; [by eauto|].
  destruct (dict_get data "name" (PStr "Unknown")) as [e|fanart_name]; [by eauto|].
  destruct (token_sort_ratio plex_name fanart_name) as [e|score]; [by eauto|].
  destruct (score_lt score (FUZZY_THRESHOLD cfg)); [by eauto|].
  unfold try_except.
  pose proof (select_asset_world data score (after_lookup cfg mbid w)) as Hw.
  destruct (select_asset data score (after_lookup cfg mbid w)) as [w' [e|[v d]]];
    simpl in Hw; subst w'; unfold connection_error, ret; by eauto.
Qed.

End GetLogoFacts.

Section GetLogoOutcomes.
Context `{Runtime} (cfg : config).

Lemma select_asset_hd data score a rest u w :
  dict_get data "hdmusiclogo" (PList []) = inr (PList (PDict a :: rest)) ->
  assoc "url" a = Some u ->
  select_asset data score w
  = (w, inr (u, "Success (HD) - Match: " +:+ float_str score +:+ "%")).
Proof.
  intros Hhd Hu. unfold select_asset. unfold_m. rewrite Hhd.
  destruct data; try discriminate. cbn [dict_get truthy getitem_0 getitem_str].
  by rewrite Hu.
Qed.

Lemma select_asset_sd data score a rest u w :
  dict_get data "hdmusiclogo" (PList []) = inr (PList []) ->
  dict_get data "musiclogo" (PList []) = inr (PList (PDict a :: rest)) ->
  assoc "url" a = Some u ->
  select_asset data score w
  = (w, inr (u, "Success (SD Fallback) - Match: " +:+ float_str score +:+ "%")).
Proof.
  intros Hhd Hsd Hu. unfold select_asset. unfold_m. rewrite Hhd, Hsd.
  cbn [truthy getitem_0 getitem_str]. by rewrite Hu.
Qed.

Lemma select_asset_none data score w :
  dict_get data "hdmusiclogo" (PList []) = inr (PList []) ->
  dict_get data "musiclogo" (PList []) = inr (PList []) ->
  select_asset data score w
  = (w, inr (PNone, "Artist exists on Fanart, but has no Logo assets (only backgrounds/art)")).
Proof.
  intros Hhd Hsd. unfold select_asset. unfold_m. by rewrite Hhd, Hsd.
Qed.

(** The diagnostics of an accepted match, and of an exception after it,
    are not the one of a rejection. *)
Lemma accepted_diag_not_rejection data score w w' v diag :
  try_except (select_asset data score) connection_error w = (w', inr (v, diag)) ->
  Str.startswith "Fuzzy Match Failed" diag = false.
Proof.
  unfold select_asset. unfold_m.
  destruct (dict_get data "hdmusiclogo" _) as [?|hd]; [by intros [= <- <- <-]|].
  destruct (dict_get data "musiclogo" _) as [?|sd]; [by intros [= <- <- <-]|].
  destruct (truthy hd).
  - destruct (getitem_0 hd) as [?|a]; [by intros [= <- <- <-]|].
    destruct (getitem_str a "url"); by intros [= <- <- <-].
  - destruct (truthy sd); [|by intros [= <- <- <-]].
    destruct (getitem_0 sd) as [?|a]; [by intros [= <- <- <-]|].
    destruct (getitem_str a "url"); by intros [= <- <- <-].
Qed.

(** C1. On a successful (200) provider response whose name scores [score]
    against the artist's name: if [score] is strictly below the configured
    threshold, [get_logo] returns [None] for the URL, whatever assets the
    payload [data] holds, and a diagnostic made of the score and of the
    provider's name; if [score] equals the threshold the match is not
    rejected: the result is that of the asset selection, and its diagnostic
    is not the rejection's. *)
Theorem get_logo_rejects_below_threshold
    (o : oracle) (mbid plex_name : string) (w : world)
    (res : response) (data fanart_name : pyval) (score : Q)
    (Hreply : fanart_reply o = inr res)
    (Hstatus : status_code res = 200)
    (Hjson : json res = inr data)
    (Hname : dict_get data "name" (PStr "Unknown") = inr fanart_name)
    (Hscore : token_sort_ratio plex_name fanart_name = inr score) :
  ((score < inject_Z (FUZZY_THRESHOLD cfg))%Q ->
     get_logo cfg o mbid plex_name w
     = (after_lookup cfg mbid w,
        inr (PNone, "Fuzzy Match Failed (Score: " +:+ float_str score
                    +:+ ", Fanart Name: '" +:+ format_value fanart_name +:+ "')")))
  /\ ((score == inject_Z (FUZZY_THRESHOLD cfg))%Q ->
     get_logo cfg o mbid plex_name w
     = try_except (select_asset data score) connection_error (after_lookup cfg mbid w)
     /\ forall w' v diag,
          get_logo cfg o mbid plex_name w = (w', inr (v, diag)) ->
          Str.startswith "Fuzzy Match Failed" diag = false).
Proof.
  rewrite get_logo_unfold, Hreply, Hstatus, Hjson, Hname, Hscore. cbn [Z.eqb Pos.eqb].
  split.
  - intros Hlt. apply score_lt_true in Hlt. by rewrite Hlt.
  - intros Heq.
    assert (score_lt score (FUZZY_THRESHOLD cfg) = false) as ->.
    { apply score_lt_false. rewrite Heq. apply Qle_refl. }
    split; [done|]. intros w' v diag. apply accepted_diag_not_rejection.
Qed.

(** C2. On an accepted match (a 200 response whose score is not below the
    threshold): a non-empty HD list makes [get_logo] return the URL of its
    first asset, whatever the SD list holds, so also when both lists hold
    assets; an empty or absent HD list with a non-empty SD list gives the
    URL of the first SD asset and the fallback diagnostic; two empty lists
    give [None] and the no-logo diagnostic. *)
Theorem get_logo_asset_priority
    (o : oracle) (mbid plex_name : string) (w : world)
    (res : response) (data fanart_name : pyval) (score : Q)
    (Hreply : fanart_reply o = inr res)
    (Hstatus : status_code res = 200)
    (Hjson : json res = inr data)
    (Hname : dict_get data "name" (PStr "Unknown") = inr fanart_name)
    (Hscore : token_sort_ratio plex_name fanart_name = inr score)
    (Haccept : (inject_Z (FUZZY_THRESHOLD cfg) <= score)%Q) :
  (forall a rest u,
     dict_get data "hdmusiclogo" (PList []) = inr (PList (PDict a :: rest)) ->
     assoc "url" a = Some u ->
     get_logo cfg o mbid plex_name w
     = (after_lookup cfg mbid w,
        inr (u, "Success (HD) - Match: " +:+ float_str score +:+ "%")))
  /\ (forall a rest u b rest' u',
     dict_get data "hdmusiclogo" (PList []) = inr (PList (PDict a :: rest)) ->
     assoc "url" a = Some u ->
     dict_get data "musiclogo" (PList []) = inr (PList (PDict b :: rest')) ->
     assoc "url" b = Some u' ->
     (get_logo cfg o mbid plex_name w).2
     = inr (u, "Success (HD) - Match: " +:+ float_str score +:+ "%"))
  /\ (forall a rest u,
     dict_get data "hdmusiclogo" (PList []) = inr (PList []) ->
     dict_get data "musiclogo" (PList []) = inr (PList (PDict a :: rest)) ->
     assoc "url" a = Some u ->
     get_logo cfg o mbid plex_name w
     = (after_lookup cfg mbid w,
        inr (u, "Success (SD Fallback) - Match: " +:+ float_str score +:+ "%")))
  /\ (dict_get data "hdmusiclogo" (PList []) = inr (PList []) ->
     dict_get data "musiclogo" (PList []) = inr (PList []) ->
     get_logo cfg o mbid plex_name w
     = (after_lookup cfg mbid w,
        inr (PNone, "Artist exists on Fanart, but has no Logo assets (only backgrounds/art)"))).
Proof.
  apply score_lt_false in Haccept.
  rewrite get_logo_unfold, Hreply, Hstatus, Hjson, Hname, Hscore, Haccept.
  cbn [Z.eqb Pos.eqb]. unfold try_except.
  split; [|split; [|split]].
  - intros a rest u Hhd Hu. by rewrite (select_asset_hd _ _ _ _ _ _ Hhd Hu).
  - intros a rest u b rest' u' Hhd Hu _ _.
    by rewrite (select_asset_hd _ _ _ _ _ _ Hhd Hu).
  - intros a rest u Hhd Hsd Hu. by rewrite (select_asset_sd _ _ _ _ _ _ Hhd Hsd Hu).
  - intros Hhd Hsd. by rewrite (select_asset_none _ _ _ Hhd Hsd).
Qed.

End GetLogoOutcomes.

(** C1 at concrete inputs: the name Bar against the provider's Foo scores 0
    under the threshold 90; the name Foo scores 100 under the threshold 100. *)
Lemma get_logo_rejects_below_threshold_witness :
  @get_logo Demo.runtime Demo.cfg (Demo.oracle_ok Demo.payload_foo) "1234" "Bar" Demo.w0
  = (after_lookup Demo.cfg "1234" Demo.w0,
     inr (PNone, "Fuzzy Match Failed (Score: 0.0, Fanart Name: 'Foo')"))
  /\ @get_logo Demo.runtime Demo.cfg100 (Demo.oracle_ok Demo.payload_foo) "1234" "Foo" Demo.w0
     = (after_lookup Demo.cfg100 "1234" Demo.w0,
        inr (PStr "http://img/hd.png", "Success (HD) - Match: 100.0%")).
Proof.
  split.
  - apply (proj1 (@get_logo_rejects_below_threshold Demo.runtime Demo.cfg
             (Demo.oracle_ok Demo.payload_foo) "1234" "Bar" Demo.w0
             _ Demo.payload_foo (PStr "Foo") (inject_Z 0)
             eq_refl eq_refl eq_refl eq_refl eq_refl)).
    reflexivity.
  - rewrite (proj1 (proj2 (@get_logo_rejects_below_threshold Demo.runtime Demo.cfg100
             (Demo.oracle_ok Demo.payload_foo) "1234" "Foo" Demo.w0
             _ Demo.payload_foo (PStr "Foo") (inject_Z 100)
             eq_refl eq_refl eq_refl eq_refl eq_refl) ltac:(reflexivity))).
    reflexivity.
Defined.

(** C2 at three payloads: both lists, the SD list alone, neither list. *)
Lemma get_logo_asset_priority_witness :
  @get_logo Demo.runtime Demo.cfg (Demo.oracle_ok Demo.payload_foo) "1234" "Foo" Demo.w0
  = (after_lookup Demo.cfg "1234" Demo.w0,
     inr (PStr "http://img/hd.png", "Success (HD) - Match: 100.0%"))
  /\ @get_logo Demo.runtime Demo.cfg (Demo.oracle_ok Demo.payload_sd_only) "1234" "Foo" Demo.w0
     = (after_lookup Demo.cfg "1234" Demo.w0,
        inr (PStr "http://img/sd.png", "Success (SD Fallback) - Match: 100.0%"))
  /\ @get_logo Demo.runtime Demo.cfg (Demo.oracle_ok Demo.payload_no_logo) "1234" "Foo" Demo.w0
     = (after_lookup Demo.cfg "1234" Demo.w0,
        inr (PNone, "Artist exists on Fanart, but has no Logo assets (only backgrounds/art)")).
Proof.
  assert (inject_Z (FUZZY_THRESHOLD Demo.cfg) <= inject_Z 100)%Q as Hacc
    by (vm_compute; discriminate).
  split; [|split].
  - exact (proj1 (@get_logo_asset_priority Demo.runtime Demo.cfg
             (Demo.oracle_ok Demo.payload_foo) "1234" "Foo" Demo.w0
             _ Demo.payload_foo (PStr "Foo") (inject_Z 100)
             eq_refl eq_refl eq_refl eq_refl eq_refl Hacc)
           _ _ _ eq_refl eq_refl).
  - exact (proj1 (proj2 (proj2 (@get_logo_asset_priority Demo.runtime Demo.cfg
             (Demo.oracle_ok Demo.payload_sd_only) "1234" "Foo" Demo.w0
             _ Demo.payload_sd_only (PStr "Foo") (inject_Z 100)
             eq_refl eq_refl eq_refl eq_refl eq_refl Hacc)))
           _ _ _ eq_refl eq_refl eq_refl).
  - exact (proj2 (proj2 (proj2 (@get_logo_asset_priority Demo.runtime Demo.cfg
             (Demo.oracle_ok Demo.payload_no_logo) "1234" "Foo" Demo.w0
             _ Demo.payload_no_logo (PStr "Foo") (inject_Z 100)
             eq_refl eq_refl eq_refl eq_refl eq_refl Hacc)))
           eq_refl eq_refl).
Defined.

(** ** [process_image] *)

Section ImageFacts.
Context `{Runtime}.

Lemma Image_new_get w h color x y :
  (x < w)%nat -> (y < h)%nat -> canvas_get (Image_new w h color) x y = Some color.
Proof.
  intros Hx Hy. unfold canvas_get, Image_new.
  rewrite lookup_replicate_2 by done. by apply lookup_replicate_2.
Qed.

Lemma paste_length c img off : length (paste c img off) = length c.
Proof. destruct off as [ox oy]. unfold paste. apply length_imap. Qed.

Lemma paste_rows c img off n :
  Forall (fun row => length row = n) c ->
  Forall (fun row => length row = n) (paste c img off).
Proof.
  destruct off as [ox oy]. unfold paste. intros Hc.
  apply Forall_forall. intros row [y [row0 [-> Hy]]]%elem_of_lookup_imap.
  rewrite length_imap. rewrite Forall_forall in Hc. apply Hc.
  by eapply list_elem_of_lookup_2.
Qed.

Lemma paste_get c img ox oy x y :
  canvas_get (paste c img (ox, oy)) x y
  = (fun dst =>
       if (ox <=? x)%nat && (x <? ox + width img)%nat
          && (oy <=? y)%nat && (y <? oy + height img)%nat
       then blend (getpixel img (x - ox) (y - oy)) dst
       else dst) <$> canvas_get c x y.
Proof.
  unfold canvas_get, paste. rewrite list_lookup_imap.
  destruct (c !! y) as [row|]; [|done]. cbn [fmap option_fmap option_map].
  by rewrite list_lookup_imap.
Qed.

(** The image fits the canvas: nothing of it is cropped. *)
Lemma offset_fits img :
  ((offset_of img).1 + width img <= side_of img
   /\ (offset_of img).2 + height img <= side_of img)%nat.
Proof.
  unfold offset_of, side_of. cbn [fst snd].
  pose proof (Nat.Div0.div_le_upper_bound) as _.
  set (s := Nat.max (width img) (height img)).
  assert (width img <= s /\ height img <= s)%nat as [Hw Hh] by (unfold s; lia).
  assert (forall d, d / 2 <= d)%nat as Hhalf
    by (intros d; apply Nat.Div0.div_le_upper_bound; lia).
  pose proof (Hhalf (s - width img)%nat). pose proof (Hhalf (s - height img)%nat).
  lia.
Qed.

Lemma square_canvas_side img :
  length (square_canvas img) = side_of img
  /\ Forall (fun row => length row = side_of img) (square_canvas img).
Proof.
  unfold square_canvas. split.
  - rewrite paste_length. apply length_replicate.
  - apply paste_rows. apply Forall_forall.
    intros row [-> _]%elem_of_replicate. apply length_replicate.
Qed.

Lemma square_canvas_get img x y :
  (x < side_of img)%nat -> (y < side_of img)%nat ->
  canvas_get (square_canvas img) x y
  = Some (if in_box img x y
          then blend (getpixel img (x - (offset_of img).1) (y - (offset_of img).2)) black
          else black).
Proof.
  intros Hx Hy. unfold square_canvas.
  destruct (offset_of img) as [ox oy] eqn:Hoff.
  rewrite paste_get, Image_new_get by done.
  unfold in_box. by rewrite Hoff.
Qed.

(** What [process_image] does, by the first step that fails. *)
Lemma process_image_unfold o url save_path w :
  process_image o url save_path w =
  match image_reply o with
  | inl e =>
      (add_events [HttpGet url 15; Log LvError (MsgImageProcessingError e)] w, inr false)
  | inr res =>
      if (400 <=? status_code res) && (status_code res <? 600) then
        (add_events [HttpGet url 15;
                     Log LvError (MsgImageProcessingError (HTTPError (status_code res)))] w,
         inr false)
      else
        match image_open (content res) with
        | inl e =>
            (add_events [HttpGet url 15; Log LvError (MsgImageProcessingError e)] w,
             inr false)
        | inr img =>
            let w2 := add_events [HttpGet url 15;
                                  SaveJpeg save_path (square_canvas img) 95] w in
            match save_reply o with
            | inr _ => (with_path save_path w2, inr true)
            | inl e =>
                (add_events [Log LvError (MsgImageProcessingError e)]
                   (if save_leaves_file o then with_path save_path w2 else w2),
                 inr false)
            end
        end
  end.
Proof.
  unfold process_image, save_jpeg, raise_for_status. unfold_m.
  destruct (image_reply o) as [e|res]; [by rewrite add_events_app|].
  destruct ((400 <=? status_code res) && (status_code res <? 600));
    [by rewrite add_events_app|].
  destruct (image_open (content res)) as [e|img]; [by rewrite add_events_app|].
  destruct (save_reply o) as [e|[]]; [|by rewrite add_events_app].
  destruct (save_leaves_file o); by rewrite !add_events_app.
Qed.

(** [process_image] never raises, and changes no statistics. *)
Lemma process_image_total o url save_path w :
  exists b, (process_image o url save_path w).2 = inr b.
Proof.
  rewrite process_image_unfold.
  destruct (image_reply o) as [e|res]; [by eauto|].
  destruct ((400 <=? status_code res) && (status_code res <? 600)); [by eauto|].
  destruct (image_open (content res)) as [e|img]; [by eauto|].
  destruct (save_reply o) as [e|[]]; by eauto.
Qed.

Lemma process_image_stats o url save_path w :
  stats (process_image o url save_path w).1 = stats w.
Proof.
  rewrite process_image_unfold.
  destruct (image_reply o) as [e|res]; [done|].
  destruct ((400 <=? status_code res) && (status_code res <? 600)); [done|].
  destruct (image_open (content res)) as [e|img]; [done|].
  destruct (save_reply o) as [e|[]]; [|done].
  by destruct (save_leaves_file o).
Qed.

(** X13.  [process_image] returns [False] exactly when the download, the check
    of its status, the decoding or the save fails. *)
Lemma process_image_false_iff o url save_path w :
  (process_image o url save_path w).2 = inr false <->
  (exists e, image_reply o = inl e)
  \/ (exists res, image_reply o = inr res
        /\ ((400 <=? status_code res) && (status_code res <? 600) = true
            \/ (exists e, image_open (content res) = inl e)
            \/ (exists e, save_reply o = inl e))).
Proof.
  rewrite process_image_unfold.
  destruct (image_reply o) as [e|res].
  { split; [|done]. intros _. left. by exists e. }
  destruct ((400 <=? status_code res) && (status_code res <? 600)) eqn:Hst.
  { split; [|done]. intros _. right. exists res. split; [done|]. by left. }
  destruct (image_open (content res)) as [e|img] eqn:Hd.
  { split; [|done]. intros _. right. exists res. split; [done|].
    right; left. by exists e. }
  destruct (save_reply o) as [e|[]] eqn:Hs.
  { split; [|done]. intros _. right. exists res. split; [done|].
    right; right. by exists e. }
  split; [done|].
  intros [[e He]|(res' & Hr & Hcause)]; [done|].
  injection Hr as <-. destruct Hcause as [Hst'|[[e He]|[e He]]]; congruence.
Qed.

(** A successful [process_image] leaves the file in place. *)
Lemma process_image_true o url save_path w :
  (process_image o url save_path w).2 = inr true ->
  save_path ∈ fs (process_image o url save_path w).1.
Proof.
  rewrite process_image_unfold.
  destruct (image_reply o) as [e|res]; [done|].
  destruct ((400 <=? status_code res) && (status_code res <? 600)); [done|].
  destruct (image_open (content res)) as [e|img]; [done|].
  destruct (save_reply o) as [e|[]]; [done|].
  intros _. cbn. set_solver.
Qed.

(** C4. When the download succeeds and the content decodes to an image
    [img] of width w and height h, the canvas [process_image] hands to the
    JPEG encoder is exactly square of side max(w, h); the image fits it at
    the offset ((side - w) div 2, (side - h) div 2); inside that box every
    pixel is the blend, by its alpha, of the source pixel over black, and
    every pixel outside the box is pure black.  For a source of 100 by 200
    the canvas is 200 by 200, the source fills the columns 50 to 149 and
    every other pixel is black. *)
Theorem process_image_square_canvas
    (o : oracle) (url : pyval) (save_path : string) (w : world)
    (res : response) (img : image)
    (Hreply : image_reply o = inr res)
    (Hstatus : (400 <=? status_code res) && (status_code res <? 600) = false)
    (Hdecode : image_open (content res) = inr img) :
  exists c : canvas,
    SaveJpeg save_path c 95 ∈ trace (process_image o url save_path w).1
    /\ side_of img = Nat.max (width img) (height img)
    /\ offset_of img
       = ((side_of img - width img) / 2, (side_of img - height img) / 2)%nat
    /\ length c = side_of img
    /\ Forall (fun row => length row = side_of img) c
    /\ ((offset_of img).1 + width img <= side_of img)%nat
    /\ ((offset_of img).2 + height img <= side_of img)%nat
    /\ (forall x y, (x < side_of img)%nat -> (y < side_of img)%nat ->
          canvas_get c x y
          = Some (if in_box img x y
                  then blend (getpixel img (x - (offset_of img).1)
                                           (y - (offset_of img).2)) black
                  else black))
    /\ (forall x y, (x < side_of img)%nat -> (y < side_of img)%nat ->
          in_box img x y = false -> canvas_get c x y = Some (0, 0, 0))
    /\ (width img = 100%nat -> height img = 200%nat ->
          length c = 200%nat
          /\ Forall (fun row => length row = 200%nat) c
          /\ forall x y, (x < 200)%nat -> (y < 200)%nat ->
               canvas_get c x y
               = Some (if (50 <=? x)%nat && (x <? 150)%nat
                       then blend (getpixel img (x - 50) y) black
                       else (0, 0, 0))).
Proof.
  exists (square_canvas img).
  destruct (square_canvas_side img) as [Hlen Hrows].
  destruct (offset_fits img) as [Hfx Hfy].
  split.
  { rewrite process_image_unfold, Hreply, Hstatus, Hdecode.
    destruct (save_reply o) as [e|[]]; [destruct (save_leaves_file o)|];
      cbn; set_solver. }
  do 6 (split; [done|]).
  split; [apply square_canvas_get|].
  split.
  { intros x y Hx Hy Hout. by rewrite square_canvas_get, Hout. }
  intros Hw Hh.
  assert (side_of img = 200%nat) as Hs by (unfold side_of; lia).
  assert (offset_of img = (50, 0)%nat) as Hoff.
  { unfold offset_of. rewrite Hs, Hw, Hh. reflexivity. }
  rewrite <- Hs. split; [done|]. split; [done|].
  intros x y Hx Hy. rewrite square_canvas_get by done.
  unfold in_box. rewrite Hoff, Hw, Hh. cbn [fst snd].
  rewrite Nat.sub_0_r.
  replace ((0 <=? y)%nat) with true by (symmetry; apply Nat.leb_le; lia).
  replace ((y <? 0 + 200)%nat) with true by (symmetry; apply Nat.ltb_lt; lia).
  change (50 + 100)%nat with 150%nat.
  by rewrite !andb_true_r.
Qed.

End ImageFacts.

(** C4 for a white opaque source of 100 by 200: the pixels left and right
    of the columns 50 to 149 are black, those inside are white. *)
Lemma process_image_square_canvas_witness :
  exists c : canvas,
    SaveJpeg "/app/ArtistLogos/Foo/artist.jpg" c 95
    ∈ trace (@process_image Demo.runtime (Demo.oracle_ok Demo.payload_foo)
               (PStr "http://img/hd.png") "/app/ArtistLogos/Foo/artist.jpg" Demo.w0).1
    /\ length c = 200%nat
    /\ canvas_get c 49 10 = Some (0, 0, 0)
    /\ canvas_get c 50 10 = Some (255, 255, 255)
    /\ canvas_get c 149 199 = Some (255, 255, 255)
    /\ canvas_get c 150 199 = Some (0, 0, 0).
Proof.
  destruct (@process_image_square_canvas Demo.runtime
              (Demo.oracle_ok Demo.payload_foo) (PStr "http://img/hd.png")
              "/app/ArtistLogos/Foo/artist.jpg" Demo.w0 _ Demo.logo
              eq_refl eq_refl eq_refl)
    as (c & Hin & _ & _ & _ & _ & _ & _ & _ & _ & H100).
  destruct (H100 eq_refl eq_refl) as (Hlen & _ & Hpix).
  exists c. split; [exact Hin|]. split; [exact Hlen|].
  rewrite !Hpix by lia. repeat split; reflexivity.
Defined.

(** ** The main loop *)

Section MainLoopFacts.
Context `{Runtime} (cfg : config).

(** The [except] clause of the main loop. *)
Lemma process_artist_handler a o w :
  process_artist cfg a o w =
  match artist_body cfg a o w with
  | (w', inl e) =>
      (add_events [Log LvError (MsgCriticalError (title a) e)]
         (with_stats incr_errors w'), inr tt)
  | (w', inr u) => (w', inr u)
  end.
Proof.
  unfold process_artist. unfold_m.
  by destruct (artist_body cfg a o w) as [w' [e|[]]].
Qed.

(** One turn of the loop, by the exit it takes. *)
Lemma artist_body_unfold a o w :
  artist_body cfg a o w =
  if skips cfg a w then (with_stats incr_skipped w, inr tt)
  else
    match next_mbid (guids a) with
    | Some (String c m) =>
        match get_logo cfg o (String c m) (title a) w with
        | (w1, inl e) => (w1, inl e)
        | (w1, inr (logo_url, result_msg)) =>
            if truthy logo_url then
              let w2 := add_events [Makedirs (artist_dir a)] w1 in
              match makedirs_reply o with
              | inl e => (w2, inl e)
              | inr _ =>
                  match process_image o logo_url (img_path a)
                          (with_path (artist_dir a) w2) with
                  | (w3, inl e) => (w3, inl e)
                  | (w3, inr false) => (w3, inr tt)
                  | (w3, inr true) =>
                      let w4 := with_stats incr_downloads
                                  (add_events [Log LvInfo (MsgSaved (title a) result_msg)] w3) in
                      if UPDATE_PLEX cfg then
                        let w5 := add_events [UploadPoster (title a) (img_path a)] w4 in
                        match upload_reply o with
                        | inr _ => (with_stats incr_posters w5, inr tt)
                        | inl pe =>
                            (add_events [Log LvError (MsgPlexUploadFailed (title a) pe)] w5,
                             inr tt)
                        end
                      else (w4, inr tt)
                  end
              end
            else
              (add_events [Log LvWarning (MsgMissing (title a) result_msg)]
                 (with_stats (append_not_found (title a +:+ " | " +:+ result_msg)) w1),
               inr tt)
        end
    | _ =>
        (add_events [Log LvInfo (MsgSkipping (title a) no_id_reason)]
           (with_stats (append_not_found (title a +:+ " | " +:+ no_id_reason)) w),
         inr tt)
    end.
Proof.
  unfold artist_body, skips, makedirs, uploadPoster. unfold_m.
  destruct (bool_decide (img_path a ∈ fs w) && negb (FORCE_REFRESH cfg)); [done|].
  destruct (next_mbid (guids a)) as [[|c m]|]; [done| |done].
  destruct (get_logo cfg o (String c m) (title a) w) as [w1 [e|[logo_url result_msg]]];
    [done|].
  destruct (truthy logo_url); [|done].
  destruct (makedirs_reply o) as [e|[]]; [done|].
  destruct (process_image o logo_url (img_path a) _) as [w3 [e|[|]]]; [done| |done].
  destruct (UPDATE_PLEX cfg); [|done].
  by destruct (upload_reply o) as [pe|[]].
Qed.

(** The exits of one turn. *)
Lemma exit_skip a o w :
  skips cfg a w = true ->
  process_artist cfg a o w = (with_stats incr_skipped w, inr tt).
Proof.
  intros Hs. by rewrite process_artist_handler, artist_body_unfold, Hs.
Qed.

Lemma exit_no_id a o w :
  skips cfg a w = false ->
  next_mbid (guids a) = None \/ next_mbid (guids a) = Some "" ->
  process_artist cfg a o w
  = (add_events [Log LvInfo (MsgSkipping (title a) no_id_reason)]
       (with_stats (append_not_found (title a +:+ " | " +:+ no_id_reason)) w),
     inr tt).
Proof.
  intros Hs Hm. rewrite process_artist_handler, artist_body_unfold, Hs.
  by destruct Hm as [-> | ->].
Qed.

Lemma exit_unresolved a o w m v d :
  skips cfg a w = false ->
  next_mbid (guids a) = Some m -> m <> "" ->
  get_logo cfg o m (title a) w = (after_lookup cfg m w, inr (v, d)) ->
  truthy v = false ->
  process_artist cfg a o w
  = (add_events [Log LvWarning (MsgMissing (title a) d)]
       (with_stats (append_not_found (title a +:+ " | " +:+ d))
          (after_lookup cfg m w)),
     inr tt).
Proof.
  intros Hs Hm Hne Hg Hv.
  rewrite process_artist_handler, artist_body_unfold, Hs, Hm.
  destruct m as [|c m]; [done|]. by rewrite Hg, Hv.
Qed.

Lemma exit_resolved a o w m v d :
  resolved cfg a o w m v d ->
  process_artist cfg a o w =
  match makedirs_reply o with
  | inl e =>
      (add_events [Log LvError (MsgCriticalError (title a) e)]
         (with_stats incr_errors
            (add_events [Makedirs (artist_dir a)] (after_lookup cfg m w))),
       inr tt)
  | inr _ =>
      let w3 := (process_image o v (img_path a) (ready_world cfg a m w)).1 in
      match (process_image o v (img_path a) (ready_world cfg a m w)).2 with
      | inr true =>
          let w4 := with_stats incr_downloads
                      (add_events [Log LvInfo (MsgSaved (title a) d)] w3) in
          if UPDATE_PLEX cfg then
            let w5 := add_events [UploadPoster (title a) (img_path a)] w4 in
            match upload_reply o with
            | inr _ => (with_stats incr_posters w5, inr tt)
            | inl pe =>
                (add_events [Log LvError (MsgPlexUploadFailed (title a) pe)] w5,
                 inr tt)
            end
          else (w4, inr tt)
      | _ => (w3, inr tt)
      end
  end.
Proof.
  intros (Hs & Hm & Hne & Hg & Hv).
  rewrite process_artist_handler, artist_body_unfold, Hs, Hm.
  destruct m as [|c m]; [done|]. rewrite Hg, Hv. cbn zeta.
  destruct (makedirs_reply o) as [e|[]]; [done|].
  fold (ready_world cfg a (String c m) w).
  destruct (process_image_total o v (img_path a) (ready_world cfg a (String c m) w))
    as [b Hb].
  destruct (process_image o v (img_path a) (ready_world cfg a (String c m) w))
    as [w3 r]. cbn [fst snd] in *. subst r.
  destruct b; [|done].
  destruct (UPDATE_PLEX cfg); [|done].
  by destruct (upload_reply o) as [pe|[]].
Qed.

(** Every turn takes one of the four exits. *)
Lemma exits_cover a o w :
  skips cfg a w = true
  \/ (skips cfg a w = false
      /\ (next_mbid (guids a) = None \/ next_mbid (guids a) = Some ""))
  \/ (exists m v d,
        skips cfg a w = false /\ next_mbid (guids a) = Some m /\ m <> ""
        /\ get_logo cfg o m (title a) w = (after_lookup cfg m w, inr (v, d))
        /\ truthy v = false)
  \/ (exists m v d, resolved cfg a o w m v d).
Proof.
  destruct (skips cfg a w) eqn:Hs; [by left|]. right.
  destruct (next_mbid (guids a)) as [[|c m]|] eqn:Hm; [left; by eauto| |left; by eauto].
  right. destruct (get_logo_total cfg o (String c m) (title a) w) as (v & d & Hg).
  destruct (truthy v) eqn:Hv.
  - right. exists (String c m), v, d. unfold resolved. rewrite Hs, Hm. by repeat split.
  - left. exists (String c m), v, d. by repeat split.
Qed.

(** A turn never raises: the loop goes on to the next artist. *)
Lemma process_artist_total a o w : (process_artist cfg a o w).2 = inr tt.
Proof.
  rewrite process_artist_handler.
  by destruct (artist_body cfg a o w) as [w' [e|[]]].
Qed.

Lemma for_each_cons {A} (x : A) (rest : list A) (body : A -> M unit) w :
  (body x w).2 = inr tt ->
  for_each (x :: rest) body w = for_each rest body (body x w).1.
Proof.
  intros Hb. cbn [for_each]. unfold bind.
  destruct (body x w) as [w' r]. cbn [fst snd] in *. by subst r.
Qed.

(** C5. With the canonical image of the artist already present and
    force-refresh disabled, a turn of the loop adds one to the skip counter
    and does nothing else: no event (so no request, download or write), the
    same files, every other counter and the not-found list unchanged, and
    no exception.  A second turn over the same artist does the same
    again: one more skip, nothing else. *)
Theorem skip_existing_image
    (a : artist) (o o' : oracle) (w : world)
    (Hexists : img_path a ∈ fs w)
    (Hforce : FORCE_REFRESH cfg = false) :
  process_artist cfg a o w
  = ({| stats :=
          {| total_scanned := total_scanned (stats w);
             already_exists_skipped := already_exists_skipped (stats w) + 1;
             new_downloads := new_downloads (stats w);
             plex_posters_updated := plex_posters_updated (stats w);
             not_found_list := not_found_list (stats w);
             errors := errors (stats w) |};
        fs := fs w;
        trace := trace w |}, inr tt)
  /\ process_artist cfg a o' (process_artist cfg a o w).1
     = ({| stats :=
             {| total_scanned := total_scanned (stats w);
                already_exists_skipped := already_exists_skipped (stats w) + 1 + 1;
                new_downloads := new_downloads (stats w);
                plex_posters_updated := plex_posters_updated (stats w);
                not_found_list := not_found_list (stats w);
                errors := errors (stats w) |};
           fs := fs w;
           trace := trace w |}, inr tt).
Proof.
  assert (forall w0, img_path a ∈ fs w0 -> skips cfg a w0 = true) as Hskip.
  { intros w0 Hin. unfold skips. by rewrite bool_decide_eq_true_2, Hforce. }
  rewrite (exit_skip a o w) by auto. split; [done|].
  cbn [fst]. by rewrite exit_skip by auto.
Qed.

Lemma next_mbid_none gs :
  Forall (fun g => Str.contains "mbid" g = false) gs -> next_mbid gs = None.
Proof.
  induction 1 as [|g gs Hg _ IH]; [done|]. cbn [next_mbid]. by rewrite Hg.
Qed.

Lemma next_mbid_first before g after :
  Forall (fun g => Str.contains "mbid" g = false) before ->
  Str.contains "mbid" g = true ->
  next_mbid (before ++ g :: after) = Some (Str.last_piece (Str.split "://" g)).
Proof.
  intros Hb Hg. induction Hb as [|x before Hx _ IH]; cbn [app next_mbid].
  - by rewrite Hg.
  - by rewrite Hx.
Qed.

(** C3, as the code has it.  The resolver takes the first identifier that
    holds the marker mbid anywhere in it (a case-sensitive substring test on
    the whole identifier) and returns what follows the last separator in it
    (the whole identifier when it holds no separator).  When no identifier
    holds the marker the resolver returns nothing and the turn adds no
    request to the trace and does not count an error; for an artist that is
    not skipped the turn records the artist in the not-found list, logs the
    reason, and does nothing else. *)
Theorem mbid_is_first_identifier_holding_marker (a : artist) (o : oracle) (w : world) :
  (forall before g after,
     guids a = before ++ g :: after ->
     Forall (fun g' => Str.contains "mbid" g' = false) before ->
     Str.contains "mbid" g = true ->
     exists m, next_mbid (guids a) = Some m
       /\ ((Str.contains "://" g = false /\ m = g)
           \/ (exists pre, g = pre +:+ "://" +:+ m /\ Str.contains "://" m = false)))
  /\ (Forall (fun g => Str.contains "mbid" g = false) (guids a) ->
      next_mbid (guids a) = None
      /\ (process_artist cfg a o w).2 = inr tt
      /\ filter (fun e => is_http e = true) (trace (process_artist cfg a o w).1)
         = filter (fun e => is_http e = true) (trace w)
      /\ errors (stats (process_artist cfg a o w).1) = errors (stats w)
      /\ (skips cfg a w = false ->
          process_artist cfg a o w
          = ({| stats := append_not_found
                           (title a +:+ " | " +:+ "Plex has no MusicBrainz ID for this artist")
                           (stats w);
                fs := fs w;
                trace := trace w
                  ++ [Log LvInfo (MsgSkipping (title a)
                                    "Plex has no MusicBrainz ID for this artist")] |},
             inr tt))).
Proof.
  split.
  - intros before g after Hg Hb Hin. rewrite Hg, next_mbid_first by done.
    eexists; split; [done|].
    destruct (StrFacts.split_last "://" g ltac:(done)) as [[Hno ->]|[pre [E Hno]]].
    + by left.
    + right. by exists pre.
  - intros Hnone. pose proof (next_mbid_none _ Hnone) as Hm.
    split; [done|]. split; [apply process_artist_total|].
    destruct (skips cfg a w) eqn:Hs.
    + rewrite exit_skip by done. by repeat split.
    + rewrite exit_no_id by auto. cbn [fst trace add_events with_stats stats].
      rewrite filter_app, filter_cons_False, filter_nil, app_nil_r by done.
      by repeat split.
Qed.

(** [get_logo] does not touch the statistics or the files. *)
Lemma after_lookup_stats m w : stats (after_lookup cfg m w) = stats w.
Proof. reflexivity. Qed.

Lemma after_lookup_fs m w : fs (after_lookup cfg m w) = fs w.
Proof. reflexivity. Qed.

(** C8. [get_logo] never raises and always returns a pair, having added
    the pause and its one request to the trace and nothing else: a 404
    response gives [None] and the diagnostic of an identifier unknown to the
    provider; a status other than 404 and 200 gives [None] and a diagnostic
    with that status; a failure of the transport, of the decoding of the
    payload, or any other exception of the [try] block gives [None] and a
    diagnostic with the text of the exception.  Whenever [get_logo] returns
    [None] for an artist, the loop records the artist as unresolved with
    that diagnostic, counts no error, and goes on. *)
Theorem get_logo_never_raises (o : oracle) (mbid plex_name : string) (w : world) :
  (exists v diag,
     get_logo cfg o mbid plex_name w = (after_lookup cfg mbid w, inr (v, diag)))
  /\ (forall res,
       fanart_reply o = inr res -> status_code res = 404 ->
       get_logo cfg o mbid plex_name w
       = (after_lookup cfg mbid w,
          inr (PNone, "Artist MBID not found in Fanart.tv database")))
  /\ (forall res,
       fanart_reply o = inr res ->
       status_code res <> 404 -> status_code res <> 200 ->
       get_logo cfg o mbid plex_name w
       = (after_lookup cfg mbid w,
          inr (PNone, "API Error (Status: " +:+ pretty (status_code res) +:+ ")")))
  /\ (forall e,
       fanart_reply o = inl e ->
       get_logo cfg o mbid plex_name w
       = (after_lookup cfg mbid w,
          inr (PNone, "Connection Error: " +:+ exn_str e)))
  /\ (forall res e,
       fanart_reply o = inr res -> status_code res = 200 -> json res = inl e ->
       get_logo cfg o mbid plex_name w
       = (after_lookup cfg mbid w,
          inr (PNone, "Connection Error: " +:+ exn_str e)))
  /\ (forall w1 e,
       get_logo_try cfg o (fanart_url cfg mbid) plex_name (add_events [Sleep] w)
       = (w1, inl e) ->
       get_logo cfg o mbid plex_name w
       = (after_lookup cfg mbid w,
          inr (PNone, "Connection Error: " +:+ exn_str e)))
  /\ (forall a diag,
       skips cfg a w = false ->
       next_mbid (guids a) = Some mbid -> mbid <> "" -> plex_name = title a ->
       get_logo cfg o mbid plex_name w = (after_lookup cfg mbid w, inr (PNone, diag)) ->
       process_artist cfg a o w
       = ({| stats := append_not_found (title a +:+ " | " +:+ diag) (stats w);
             fs := fs w;
             trace := trace w
               ++ [Sleep; HttpGet (PStr (fanart_url cfg mbid)) 10;
                   Log LvWarning (MsgMissing (title a) diag)] |},
          inr tt)
       /\ errors (stats (process_artist cfg a o w).1) = errors (stats w)).
Proof.
  split; [apply get_logo_total|].
  split.
  { intros res Hr Hst. by rewrite get_logo_unfold, Hr, Hst. }
  split.
  { intros res Hr H404 H200. rewrite get_logo_unfold, Hr.
    destruct (Z.eqb_spec (status_code res) 404); [done|].
    by destruct (Z.eqb_spec (status_code res) 200). }
  split.
  { intros e Hr. by rewrite get_logo_unfold, Hr. }
  split.
  { intros res e Hr Hst Hj. by rewrite get_logo_unfold, Hr, Hst, Hj. }
  split.
  { intros w1 e Htry.
    destruct (get_logo_total cfg o mbid plex_name w) as (v & d & Hg).
    rewrite Hg. revert Hg. unfold get_logo. unfold_m. cbn zeta.
    rewrite Htry. by intros [= -> <- <-]. }
  intros a diag Hs Hm Hne -> Hg.
  rewrite (exit_unresolved a o w mbid PNone diag) by done.
  split; [|done].
  unfold after_lookup, add_events, with_stats. cbn [stats fs trace].
  by rewrite <- app_assoc.
Qed.

Lemma ready_world_stats a m w : stats (ready_world cfg a m w) = stats w.
Proof. reflexivity. Qed.

(** The [try] block never touches the error counter. *)
Lemma artist_body_errors a o w :
  errors (stats (artist_body cfg a o w).1) = errors (stats w).
Proof.
  rewrite artist_body_unfold.
  destruct (skips cfg a w); [done|].
  destruct (next_mbid (guids a)) as [[|c m]|]; [done| |done].
  destruct (get_logo_total cfg o (String c m) (title a) w) as (v & d & ->).
  destruct (truthy v); [|done]. cbn zeta.
  destruct (makedirs_reply o) as [e|[]]; [done|].
  pose proof (process_image_stats o v (img_path a)
                (with_path (artist_dir a)
                   (add_events [Makedirs (artist_dir a)]
                      (after_lookup cfg (String c m) w)))) as Hst.
  destruct (process_image o v (img_path a) _) as [w3 [e|[|]]];
    cbn [fst] in Hst; change (errors (stats w)) with
      (errors (stats (with_path (artist_dir a)
                        (add_events [Makedirs (artist_dir a)]
                           (after_lookup cfg (String c m) w)))));
    rewrite <- Hst.
  - done.
  - destruct (UPDATE_PLEX cfg); [|done].
    by destruct (upload_reply o) as [pe|[]].
  - done.
Qed.

(** C6.  For an artist whose logo was resolved and whose directory was
    made: if [process_image] fails, the turn ends there with the statistics
    as they were, so the artist is not added to the not-found list and no
    error is counted; if the upload of the poster fails, the statistics are
    those of a download alone, so the failure counts nowhere.  The error
    counter moves only when the [try] block of the turn raises: the
    exception is caught, one error is counted and the artist's name is
    logged with the exception; otherwise the counter stays.  In every case
    the turn itself does not raise and the loop goes on with the rest of
    the artists. *)
Theorem failures_and_error_counter (a : artist) (o : oracle) (w : world) :
  (forall m v d,
     resolved cfg a o w m v d -> makedirs_reply o = inr tt ->
     (process_image o v (img_path a) (ready_world cfg a m w)).2 = inr false ->
     process_artist cfg a o w
     = ((process_image o v (img_path a) (ready_world cfg a m w)).1, inr tt)
     /\ stats (process_artist cfg a o w).1 = stats w)
  /\ (forall m v d pe,
       resolved cfg a o w m v d -> makedirs_reply o = inr tt ->
       (process_image o v (img_path a) (ready_world cfg a m w)).2 = inr true ->
       UPDATE_PLEX cfg = true -> upload_reply o = inl pe ->
       (process_artist cfg a o w).2 = inr tt
       /\ stats (process_artist cfg a o w).1
          = {| total_scanned := total_scanned (stats w);
               already_exists_skipped := already_exists_skipped (stats w);
               new_downloads := new_downloads (stats w) + 1;
               plex_posters_updated := plex_posters_updated (stats w);
               not_found_list := not_found_list (stats w);
               errors := errors (stats w) |})
  /\ (forall e,
       (artist_body cfg a o w).2 = inl e ->
       process_artist cfg a o w
       = (add_events [Log LvError (MsgCriticalError (title a) e)]
            (with_stats incr_errors (artist_body cfg a o w).1), inr tt)
       /\ errors (stats (process_artist cfg a o w).1) = errors (stats w) + 1)
  /\ ((artist_body cfg a o w).2 = inr tt ->
       process_artist cfg a o w = artist_body cfg a o w
       /\ errors (stats (process_artist cfg a o w).1) = errors (stats w))
  /\ (process_artist cfg a o w).2 = inr tt
  /\ (forall rest,
       for_each ((a, o) :: rest) (fun ao => process_artist cfg ao.1 ao.2) w
       = for_each rest (fun ao => process_artist cfg ao.1 ao.2)
           (process_artist cfg a o w).1).
Proof.
  split.
  { intros m v d Hres Hmk Himg. rewrite (exit_resolved a o w m v d Hres), Hmk, Himg.
    cbn zeta. split; [done|]. cbn [fst].
    by rewrite process_image_stats. }
  split.
  { intros m v d pe Hres Hmk Himg Hup Hpe.
    rewrite (exit_resolved a o w m v d Hres), Hmk, Himg, Hup, Hpe.
    cbn zeta. split; [done|]. cbn [fst snd stats add_events with_stats].
    by rewrite process_image_stats. }
  split.
  { intros e He. pose proof (artist_body_errors a o w) as Herr.
    rewrite process_artist_handler.
    destruct (artist_body cfg a o w) as [w' [e'|u]]; [|done].
    cbn [fst snd] in *. injection He as ->. split; [done|].
    cbn. by rewrite Herr. }
  split.
  { intros Hok. pose proof (artist_body_errors a o w) as Herr.
    rewrite process_artist_handler.
    destruct (artist_body cfg a o w) as [w' [e'|u]]; [done|].
    cbn [fst snd] in *. injection Hok as ->. by split. }
  split; [apply process_artist_total|].
  intros rest.
  by rewrite (for_each_cons (a, o) rest (fun ao => process_artist cfg ao.1 ao.2) w)
    by apply process_artist_total.
Qed.

Lemma process_image_trace o url save_path w :
  exists evs, trace (process_image o url save_path w).1 = trace w ++ evs.
Proof.
  rewrite process_image_unfold.
  destruct (image_reply o) as [e|res]; [by eexists|].
  destruct ((400 <=? status_code res) && (status_code res <? 600)); [by eexists|].
  destruct (image_open (content res)) as [e|img]; [by eexists|].
  destruct (save_reply o) as [e|[]]; [|by eexists].
  destruct (save_leaves_file o); cbn; rewrite <- app_assoc; by eexists.
Qed.

(** C10.  A turn that leaves by the skip branch, by a missing identifier
    or by an art lookup that returned no URL creates no directory and
    writes no file: the set of paths is unchanged and no event of the turn
    is a [Makedirs] or a [SaveJpeg].  Conversely every turn either has
    that property, or the art resolver returned an asset URL and the
    creation of the artist's directory follows the lookup in the trace. *)
Theorem directory_only_after_resolution (a : artist) (o : oracle) (w : world) :
  (skips cfg a w = true -> no_fs_effect w (process_artist cfg a o w).1)
  /\ (skips cfg a w = false ->
      next_mbid (guids a) = None \/ next_mbid (guids a) = Some "" ->
      no_fs_effect w (process_artist cfg a o w).1)
  /\ (forall m v d,
      skips cfg a w = false -> next_mbid (guids a) = Some m -> m <> "" ->
      get_logo cfg o m (title a) w = (after_lookup cfg m w, inr (v, d)) ->
      truthy v = false ->
      no_fs_effect w (process_artist cfg a o w).1)
  /\ (no_fs_effect w (process_artist cfg a o w).1
      \/ exists m v d,
           resolved cfg a o w m v d
           /\ exists evs,
                trace (process_artist cfg a o w).1
                = trace w ++ [Sleep; HttpGet (PStr (fanart_url cfg m)) 10;
                              Makedirs (artist_dir a)] ++ evs).
Proof.
  assert (forall w', w' = with_stats incr_skipped w -> no_fs_effect w w') as Hskip.
  { intros w' ->. split; [done|]. exists []. by rewrite app_nil_r. }
  assert (forall f lv t, no_fs_effect w (add_events [Log lv t] (with_stats f w)))
    as Hnoid.
  { intros f lv t. split; [done|]. exists [Log lv t]. split; [done|].
    by repeat constructor. }
  assert (forall f lv t m,
            no_fs_effect w (add_events [Log lv t] (with_stats f (after_lookup cfg m w))))
    as Hunres.
  { intros f lv t m. split; [done|].
    exists [Sleep; HttpGet (PStr (fanart_url cfg m)) 10; Log lv t].
    split; [cbn; by rewrite <- app_assoc | by repeat constructor]. }
  split; [|split; [|split]].
  - intros Hs. rewrite exit_skip by done. by apply Hskip.
  - intros Hs Hm. rewrite exit_no_id by done. apply Hnoid.
  - intros m v d Hs Hm Hne Hg Hv.
    rewrite (exit_unresolved a o w m v d) by done. apply Hunres.
  - destruct (exits_cover a o w)
      as [Hs|[[Hs Hm]|[(m & v & d & Hs & Hm & Hne & Hg & Hv)|(m & v & d & Hres)]]].
    + left. rewrite exit_skip by done. by apply Hskip.
    + left. rewrite exit_no_id by done. apply Hnoid.
    + left. rewrite (exit_unresolved a o w m v d) by done. apply Hunres.
    + right. exists m, v, d. split; [done|].
      rewrite (exit_resolved a o w m v d Hres).
      destruct (makedirs_reply o) as [e|[]].
      * eexists. cbn. rewrite <- !app_assoc. reflexivity.
      * destruct (process_image_trace o v (img_path a) (ready_world cfg a m w))
          as [evs Hevs].
        cbn zeta.
        destruct ((process_image o v (img_path a) (ready_world cfg a m w)).2)
          as [e|[|]].
        -- exists evs. cbn [fst]. rewrite Hevs. cbn. by rewrite <- !app_assoc.
        -- destruct (UPDATE_PLEX cfg); [destruct (upload_reply o) as [pe|[]]|];
             eexists; cbn; rewrite Hevs; cbn; rewrite <- !app_assoc; cbn;
             reflexivity.
        -- exists evs. cbn [fst]. rewrite Hevs. cbn. by rewrite <- !app_assoc.
Qed.

(** A turn that counts a download has left the artist's image in place. *)
Lemma download_writes_image a o w :
  new_downloads (stats (process_artist cfg a o w).1) <> new_downloads (stats w) ->
  img_path a ∈ fs (process_artist cfg a o w).1.
Proof.
  destruct (exits_cover a o w)
    as [Hs|[[Hs Hm]|[(m & v & d & Hs & Hm & Hne & Hg & Hv)|(m & v & d & Hres)]]].
  - by rewrite exit_skip by done.
  - by rewrite exit_no_id by done.
  - by rewrite (exit_unresolved a o w m v d) by done.
  - rewrite (exit_resolved a o w m v d Hres).
    destruct (makedirs_reply o) as [e|[]]; [done|]. cbn zeta.
    pose proof (process_image_stats o v (img_path a) (ready_world cfg a m w)) as Hst.
    pose proof (process_image_true o v (img_path a) (ready_world cfg a m w)) as Hin.
    destruct ((process_image o v (img_path a) (ready_world cfg a m w)).2)
      as [e|[|]].
    + cbn [fst]. by rewrite Hst.
    + intros _. specialize (Hin eq_refl).
      destruct (UPDATE_PLEX cfg); [destruct (upload_reply o) as [pe|[]]|]; exact Hin.
    + cbn [fst]. by rewrite Hst.
Qed.

(** C9.  [sanitize] is not injective: the names A/B and AB differ and have
    the same sanitized form, and so do any two names with the same
    characters outside the removed ones, or that differ by whitespace
    around them.  Two artists whose names sanitize alike share their
    directory and their image path; a turn that counts a download for the
    first leaves that image in place, and once it is in place the turn of
    the second, force-refresh being disabled, takes the skip branch. *)
Theorem sanitize_collision_skips
    (a1 a2 : artist)
    (Hsame : sanitize (title a1) = sanitize (title a2))
    (Hforce : FORCE_REFRESH cfg = false) :
  ("A/B" <> "AB" /\ sanitize "A/B" = sanitize "AB")
  /\ (forall n1 n2 : string,
       filter (fun c => c ∉ Str.illegal_chars) (Str.chars n1)
       = filter (fun c => c ∉ Str.illegal_chars) (Str.chars n2) ->
       sanitize n1 = sanitize n2)
  /\ (forall l name r : string,
       Str.all_space l -> Str.all_space r ->
       sanitize (l +:+ name +:+ r) = sanitize name)
  /\ artist_dir a1 = artist_dir a2
  /\ img_path a1 = img_path a2
  /\ (forall o1 w,
       new_downloads (stats (process_artist cfg a1 o1 w).1)
       <> new_downloads (stats w) ->
       img_path a1 ∈ fs (process_artist cfg a1 o1 w).1)
  /\ (forall o2 w',
       img_path a1 ∈ fs w' ->
       process_artist cfg a2 o2 w' = (with_stats incr_skipped w', inr tt)).
Proof.
  assert (img_path a1 = img_path a2) as Hpath
    by (unfold img_path, artist_dir; by rewrite Hsame).
  split; [by split|].
  split; [apply sanitize_same_legal|].
  split; [apply sanitize_pad|].
  split; [unfold artist_dir; by rewrite Hsame|].
  split; [done|].
  split; [intros o1 w; apply download_writes_image|].
  intros o2 w' Hin. apply exit_skip. unfold skips.
  rewrite <- Hpath, Hforce. by rewrite bool_decide_eq_true_2.
Qed.

End MainLoopFacts.

(** C5 for the artist Foo with its image in place. *)
Lemma skip_existing_image_witness :
  @process_artist Demo.runtime Demo.cfg Demo.foo Demo.oracle_offline
    (with_path "/app/ArtistLogos/Foo/artist.jpg" Demo.w0)
  = ({| stats :=
          {| total_scanned := 0; already_exists_skipped := 1; new_downloads := 0;
             plex_posters_updated := 0; not_found_list := []; errors := 0 |};
        fs := {["/app/ArtistLogos/Foo/artist.jpg"]} ∪ ∅;
        trace := [] |}, inr tt).
Proof.
  apply (proj1 (@skip_existing_image Demo.runtime Demo.cfg Demo.foo
                  Demo.oracle_offline Demo.oracle_offline
                  (with_path "/app/ArtistLogos/Foo/artist.jpg" Demo.w0)
                  ltac:(vm_compute; set_solver) eq_refl)).
Defined.

(** C3 as the specification words it fails: the marker is looked for in the
    whole identifier, not in its scheme component.  Here the first
    identifier holds the marker after its separator only; the code returns
    it, where the first identifier with the marker in its scheme is the
    second one. *)
Lemma mbid_match_ignores_scheme_counterexample :
  next_mbid ["source://mbid-mirror/77"; "mbid://1234"] = Some "mbid-mirror/77"
  /\ spec_resolve_id ["source://mbid-mirror/77"; "mbid://1234"] = Some "1234"
  /\ next_mbid ["source://mbid-mirror/77"; "mbid://1234"]
     <> spec_resolve_id ["source://mbid-mirror/77"; "mbid://1234"].
Proof. split; [reflexivity|]. split; [reflexivity|]. discriminate. Qed.

(** C3 for an artist with an identifier of MusicBrainz and
    for one without. *)
Lemma mbid_is_first_identifier_holding_marker_witness :
  (exists m, next_mbid (guids Demo.foo) = Some m
     /\ ((Str.contains "://" "mbid://1234" = false /\ m = "mbid://1234")
         \/ (exists pre, "mbid://1234" = pre +:+ "://" +:+ m
                         /\ Str.contains "://" m = false)))
  /\ @process_artist Demo.runtime Demo.cfg Demo.no_id Demo.oracle_offline Demo.w0
     = ({| stats := append_not_found "Foo | Plex has no MusicBrainz ID for this artist" stats0;
           fs := ∅;
           trace := [Log LvInfo (MsgSkipping "Foo"
                                   "Plex has no MusicBrainz ID for this artist")] |},
        inr tt).
Proof.
  split.
  - apply (proj1 (@mbid_is_first_identifier_holding_marker Demo.runtime Demo.cfg
                    Demo.foo Demo.oracle_offline Demo.w0)
             ["plex://artist/5d07"] "mbid://1234" [] eq_refl).
    + repeat constructor.
    + reflexivity.
  - assert (Forall (fun g => Str.contains "mbid" g = false) (guids Demo.no_id)) as Hnone
      by (repeat constructor).
    exact (proj2 (proj2 (proj2 (proj2
             (proj2 (@mbid_is_first_identifier_holding_marker Demo.runtime Demo.cfg
                       Demo.no_id Demo.oracle_offline Demo.w0) Hnone))))
             eq_refl).
Defined.

(** C8 for a 404, for a 500 and for a transport that fails. *)
Lemma get_logo_never_raises_witness :
  @get_logo Demo.runtime Demo.cfg (Demo.oracle_status 404) "1234" "Foo" Demo.w0
  = (after_lookup Demo.cfg "1234" Demo.w0,
     inr (PNone, "Artist MBID not found in Fanart.tv database"))
  /\ @get_logo Demo.runtime Demo.cfg (Demo.oracle_status 500) "1234" "Foo" Demo.w0
     = (after_lookup Demo.cfg "1234" Demo.w0, inr (PNone, "API Error (Status: 500)"))
  /\ @get_logo Demo.runtime Demo.cfg Demo.oracle_offline "1234" "Foo" Demo.w0
     = (after_lookup Demo.cfg "1234" Demo.w0, inr (PNone, "Connection Error: timed out"))
  /\ @process_artist Demo.runtime Demo.cfg Demo.foo Demo.oracle_offline Demo.w0
     = ({| stats := append_not_found "Foo | Connection Error: timed out" stats0;
           fs := ∅;
           trace := [Sleep;
                     HttpGet (PStr "https://webservice.fanart.tv/v3/music/1234?api_key=KEY") 10;
                     Log LvWarning (MsgMissing "Foo" "Connection Error: timed out")] |},
        inr tt).
Proof.
  split; [|split; [|split]].
  - exact (proj1 (proj2 (@get_logo_never_raises Demo.runtime Demo.cfg
             (Demo.oracle_status 404) "1234" "Foo" Demo.w0)) _ eq_refl eq_refl).
  - exact (proj1 (proj2 (proj2 (@get_logo_never_raises Demo.runtime Demo.cfg
             (Demo.oracle_status 500) "1234" "Foo" Demo.w0))) _ eq_refl
             ltac:(discriminate) ltac:(discriminate)).
  - exact (proj1 (proj2 (proj2 (proj2 (@get_logo_never_raises Demo.runtime Demo.cfg
             Demo.oracle_offline "1234" "Foo" Demo.w0)))) _ eq_refl).
  - exact (proj1 (proj2 (proj2 (proj2 (proj2 (proj2 (proj2
             (@get_logo_never_raises Demo.runtime Demo.cfg
                Demo.oracle_offline "1234" "Foo" Demo.w0))))))
             Demo.foo "Connection Error: timed out"
             eq_refl eq_refl ltac:(discriminate) eq_refl eq_refl)).
Defined.

(** The artist Foo is resolved whenever the provider answers with Foo's
    payload. *)
Lemma demo_foo_resolved (o : oracle) :
  fanart_reply o = Demo.reply 200 Demo.payload_foo ->
  @resolved Demo.runtime Demo.cfg Demo.foo o Demo.w0
    "1234" (PStr "http://img/hd.png") "Success (HD) - Match: 100.0%".
Proof.
  intros Hr. unfold resolved. split; [reflexivity|]. split; [reflexivity|].
  split; [discriminate|]. split; [|reflexivity].
  rewrite get_logo_unfold, Hr. reflexivity.
Defined.

(** C6 for a download that fails, an upload that fails, and a directory
    that cannot be made. *)
Lemma failures_and_error_counter_witness :
  stats (@process_artist Demo.runtime Demo.cfg Demo.foo Demo.oracle_bad_image Demo.w0).1
  = stats0
  /\ stats (@process_artist Demo.runtime Demo.cfg Demo.foo Demo.oracle_bad_upload Demo.w0).1
     = {| total_scanned := 0; already_exists_skipped := 0; new_downloads := 1;
          plex_posters_updated := 0; not_found_list := []; errors := 0 |}
  /\ errors (stats (@process_artist Demo.runtime Demo.cfg Demo.foo
                      Demo.oracle_bad_makedirs Demo.w0).1) = 1.
Proof.
  split; [|split].
  - exact (proj2 (proj1 (@failures_and_error_counter Demo.runtime Demo.cfg
             Demo.foo Demo.oracle_bad_image Demo.w0)
             "1234" (PStr "http://img/hd.png") "Success (HD) - Match: 100.0%"
             (demo_foo_resolved Demo.oracle_bad_image eq_refl) eq_refl eq_refl)).
  - exact (proj2 (proj1 (proj2 (@failures_and_error_counter Demo.runtime Demo.cfg
             Demo.foo Demo.oracle_bad_upload Demo.w0))
             "1234" (PStr "http://img/hd.png") "Success (HD) - Match: 100.0%"
             (Raised "upload refused")
             (demo_foo_resolved Demo.oracle_bad_upload eq_refl) eq_refl eq_refl
             eq_refl eq_refl)).
  - exact (proj2 (proj1 (proj2 (proj2 (@failures_and_error_counter Demo.runtime
             Demo.cfg Demo.foo Demo.oracle_bad_makedirs Demo.w0)))
             (Raised "permission denied") eq_refl)).
Defined.

(** C10 for a skipped artist, one without identifier and one whose lookup
    fails. *)
Lemma directory_only_after_resolution_witness :
  no_fs_effect (with_path "/app/ArtistLogos/Foo/artist.jpg" Demo.w0)
    (@process_artist Demo.runtime Demo.cfg Demo.foo Demo.oracle_offline
       (with_path "/app/ArtistLogos/Foo/artist.jpg" Demo.w0)).1
  /\ no_fs_effect Demo.w0
       (@process_artist Demo.runtime Demo.cfg Demo.no_id Demo.oracle_offline Demo.w0).1
  /\ no_fs_effect Demo.w0
       (@process_artist Demo.runtime Demo.cfg Demo.foo Demo.oracle_offline Demo.w0).1.
Proof.
  split; [|split].
  - exact (proj1 (@directory_only_after_resolution Demo.runtime Demo.cfg Demo.foo
             Demo.oracle_offline (with_path "/app/ArtistLogos/Foo/artist.jpg" Demo.w0))
           ltac:(vm_compute; reflexivity)).
  - exact (proj1 (proj2 (@directory_only_after_resolution Demo.runtime Demo.cfg
             Demo.no_id Demo.oracle_offline Demo.w0))
           eq_refl (or_introl eq_refl)).
  - exact (proj1 (proj2 (proj2 (@directory_only_after_resolution Demo.runtime Demo.cfg
             Demo.foo Demo.oracle_offline Demo.w0)))
           "1234" PNone "Connection Error: timed out"
           eq_refl eq_refl ltac:(discriminate) eq_refl eq_refl).
Defined.

(** C9 for the two artists A/B and AB in one run: the first is downloaded,
    the second is skipped because the first one's image is in its place. *)
Lemma sanitize_collision_skips_witness :
  title Demo.a_slash_b <> title Demo.ab
  /\ img_path Demo.a_slash_b = img_path Demo.ab
  /\ new_downloads
       (stats (@process_artist Demo.runtime Demo.cfg Demo.a_slash_b
                 (Demo.oracle_ok Demo.payload_a_slash_b) Demo.w0).1) = 1
  /\ @process_artist Demo.runtime Demo.cfg Demo.ab (Demo.oracle_ok Demo.payload_a_slash_b)
       (@process_artist Demo.runtime Demo.cfg Demo.a_slash_b
          (Demo.oracle_ok Demo.payload_a_slash_b) Demo.w0).1
     = (with_stats incr_skipped
          (@process_artist Demo.runtime Demo.cfg Demo.a_slash_b
             (Demo.oracle_ok Demo.payload_a_slash_b) Demo.w0).1, inr tt).
Proof.
  pose proof (@sanitize_collision_skips Demo.runtime Demo.cfg
                Demo.a_slash_b Demo.ab eq_refl eq_refl)
    as (_ & _ & _ & _ & Hpath & Hwrite & Hskip).
  split; [discriminate|]. split; [exact Hpath|].
  assert (new_downloads
            (stats (@process_artist Demo.runtime Demo.cfg Demo.a_slash_b
                      (Demo.oracle_ok Demo.payload_a_slash_b) Demo.w0).1) = 1) as Hdl
    by (vm_compute; reflexivity).
  split; [exact Hdl|].
  apply Hskip, Hwrite. rewrite Hdl. discriminate.
Defined.

(** ** Further properties of the main loop *)

Section MoreLoopFacts.
Context `{Runtime} (cfg : config).

(** X1.  An identifier that holds the marker but nothing after its last
    separator counts as missing: line 130 tests [not mbid], which is true of
    the empty string as of [None]. *)
Theorem empty_identifier_counts_as_missing
    (a : artist) (o : oracle) (w : world)
    (Hskip : skips cfg a w = false)
    (Hempty : next_mbid (guids a) = Some "") :
  process_artist cfg a o w
  = ({| stats := append_not_found
                   (title a +:+ " | " +:+ "Plex has no MusicBrainz ID for this artist")
                   (stats w);
        fs := fs w;
        trace := trace w
          ++ [Log LvInfo (MsgSkipping (title a)
                            "Plex has no MusicBrainz ID for this artist")] |},
     inr tt).
Proof. rewrite exit_no_id by auto. reflexivity. Qed.

(** X2.  The [try] block of a turn raises only when the creation of the
    artist's directory does, after the art resolver returned a URL. *)
Theorem body_raises_only_on_makedirs
    (a : artist) (o : oracle) (w : world) (e : exn)
    (Hraise : (artist_body cfg a o w).2 = inl e) :
  makedirs_reply o = inl e /\ exists m v d, resolved cfg a o w m v d.
Proof.
  revert Hraise. rewrite artist_body_unfold.
  destruct (skips cfg a w) eqn:Hs; [done|].
  destruct (next_mbid (guids a)) as [[|c m]|] eqn:Hm; [done| |done].
  destruct (get_logo_total cfg o (String c m) (title a) w) as (v & d & Hg).
  rewrite Hg. destruct (truthy v) eqn:Hv; [|done]. cbn zeta.
  destruct (makedirs_reply o) as [e'|[]].
  - intros [= ->]. split; [done|]. exists (String c m), v, d.
    unfold resolved. by rewrite Hs, Hm.
  - destruct (process_image_total o v (img_path a)
                (with_path (artist_dir a)
                   (add_events [Makedirs (artist_dir a)]
                      (after_lookup cfg (String c m) w)))) as [b Hb].
    destruct (process_image o v (img_path a) _) as [w3 r].
    cbn [snd] in Hb. subst r. destruct b; [|done].
    destruct (UPDATE_PLEX cfg); [|done].
    by destruct (upload_reply o) as [pe|[]].
Qed.

End MoreLoopFacts.

(** The identifier mbid:// has nothing after its separator. *)
Lemma empty_identifier_counts_as_missing_witness :
  @process_artist Demo.runtime Demo.cfg {| title := "Foo"; guids := ["mbid://"] |}
    Demo.oracle_offline Demo.w0
  = ({| stats := append_not_found "Foo | Plex has no MusicBrainz ID for this artist" stats0;
        fs := ∅;
        trace := [Log LvInfo (MsgSkipping "Foo"
                                "Plex has no MusicBrainz ID for this artist")] |},
     inr tt).
Proof.
  exact (@empty_identifier_counts_as_missing Demo.runtime Demo.cfg
           {| title := "Foo"; guids := ["mbid://"] |} Demo.oracle_offline Demo.w0
           eq_refl eq_refl).
Defined.

(** The directory of Foo cannot be made: the block raises. *)
Lemma body_raises_only_on_makedirs_witness :
  makedirs_reply Demo.oracle_bad_makedirs = inl (Raised "permission denied")
  /\ exists m v d,
       @resolved Demo.runtime Demo.cfg Demo.foo Demo.oracle_bad_makedirs Demo.w0 m v d.
Proof.
  exact (@body_raises_only_on_makedirs Demo.runtime Demo.cfg Demo.foo
           Demo.oracle_bad_makedirs Demo.w0 (Raised "permission denied") eq_refl).
Defined.

(** The end-to-end scenario: the artist Foo has the identifier mbid://1234
    and the provider returns the name Foo with one HD asset.  The image is
    written, one download and one poster update are counted, and the
    not-found list stays empty. *)
Example end_to_end_foo :
  (@main_loop Demo.runtime Demo.cfg [(Demo.foo, Demo.oracle_ok Demo.payload_foo)] Demo.w0).2
  = inr tt
  /\ stats (@main_loop Demo.runtime Demo.cfg
              [(Demo.foo, Demo.oracle_ok Demo.payload_foo)] Demo.w0).1
     = {| total_scanned := 1; already_exists_skipped := 0; new_downloads := 1;
          plex_posters_updated := 1; not_found_list := []; errors := 0 |}
  /\ img_path Demo.foo
     ∈ fs (@main_loop Demo.runtime Demo.cfg
             [(Demo.foo, Demo.oracle_ok Demo.payload_foo)] Demo.w0).1
  /\ filter (fun e => is_http e = true)
       (trace (@main_loop Demo.runtime Demo.cfg
                 [(Demo.foo, Demo.oracle_ok Demo.payload_foo)] Demo.w0).1)
     = [HttpGet (PStr "https://webservice.fanart.tv/v3/music/1234?api_key=KEY") 10;
        HttpGet (PStr "http://img/hd.png") 15].
Proof.
  split; [vm_compute; reflexivity|].
  split; [vm_compute; reflexivity|].
  split; [|vm_compute; reflexivity].
  apply (bool_decide_eq_true_1 (img_path Demo.foo ∈ fs _)).
  vm_compute; reflexivity.
Qed.

Example sanitize_examples :
  sanitize "A/B:C?" = "ABC"
  /\ sanitize "  AC/DC  " = "ACDC"
  /\ sanitize "a / b" = "a  b"
  /\ sanitize " <*> " = "".
Proof. repeat split; reflexivity. Qed.

Example split_examples :
  Str.split "://" "mbid://12://34" = ["mbid"; "12"; "34"]
  /\ Str.split "://" "://" = [""; ""]
  /\ Str.split "://" "no separator" = ["no separator"]
  /\ Str.path_join (Str.path_join "/app/ArtistLogos" "AB") "artist.jpg"
     = "/app/ArtistLogos/AB/artist.jpg".
Proof. repeat split; reflexivity. Qed.

(** ** The run as a whole *)

Lemma count_app p tr1 tr2 : count p (tr1 ++ tr2) = (count p tr1 + count p tr2)%nat.
Proof. induction tr1 as [|e tr1 IH]; cbn [app count]; [done | rewrite IH; lia]. Qed.

Section RunFacts.
Context `{Runtime} (cfg : config).

(** The world after the turn of one artist. *)
Lemma turn_result a o w :
  process_artist cfg a o w = ((process_artist cfg a o w).1, inr tt).
Proof.
  pose proof (process_artist_total cfg a o w) as Ht.
  destruct (process_artist cfg a o w) as [w' r]. cbn [fst snd] in *. by subst r.
Qed.

(** The loop is the fold of the turns, and it never raises. *)
Lemma for_each_turns artists w :
  for_each artists (fun ao => process_artist cfg ao.1 ao.2) w
  = (fold_left (fun w0 ao => (process_artist cfg ao.1 ao.2 w0).1) artists w, inr tt).
Proof.
  revert w. induction artists as [|[a o] rest IH]; intros w; [done|].
  rewrite for_each_cons by apply process_artist_total. by rewrite IH.
Qed.

Lemma main_loop_turns artists w :
  main_loop cfg artists w
  = (fold_left (fun w0 ao => (process_artist cfg ao.1 ao.2 w0).1) artists
       (with_stats (set_total_scanned (Z.of_nat (length artists))) w), inr tt).
Proof. unfold main_loop. unfold_m. by rewrite for_each_turns. Qed.

(** An invariant of the turns is an invariant of the loop. *)
Lemma turns_invariant (P : world -> Prop) artists w :
  (forall a o w0, P w0 -> P (process_artist cfg a o w0).1) ->
  P w ->
  P (fold_left (fun w0 ao => (process_artist cfg ao.1 ao.2 w0).1) artists w).
Proof.
  intros Hstep. revert w. induction artists as [|[a o] rest IH]; intros w Hw; [done|].
  cbn [fold_left]. apply IH. by apply Hstep.
Qed.

End RunFacts.

(** Every way a turn can go, with the world it leaves written out. *)
Ltac turn_cases cfg a o w :=
  let m := fresh "m" in
  let v := fresh "v" in
  let d := fresh "d" in
  let Hs := fresh "Hs" in
  let Hm := fresh "Hm" in
  let Hne := fresh "Hne" in
  let Hg := fresh "Hg" in
  let Hv := fresh "Hv" in
  let Hres := fresh "Hres" in
  destruct (exits_cover cfg a o w)
    as [Hs|[[Hs Hm]|[(m & v & d & Hs & Hm & Hne & Hg & Hv)|(m & v & d & Hres)]]];
  [ rewrite (exit_skip cfg a o w Hs)
  | rewrite (exit_no_id cfg a o w Hs Hm)
  | rewrite (exit_unresolved cfg a o w m v d Hs Hm Hne Hg Hv)
  | rewrite (exit_resolved cfg a o w m v d Hres), process_image_unfold;
    destruct (makedirs_reply o) as [?|[]];
    [ | destruct (image_reply o) as [?|?res];
        [ | destruct ((400 <=? status_code res) && (status_code res <? 600));
            [ | destruct (image_open (content res)) as [?|?img];
                [ | destruct (save_reply o) as [?|[]];
                    [ destruct (save_leaves_file o)
                    | cbn zeta; cbn [fst snd];
                      destruct (UPDATE_PLEX cfg) eqn:?;
                      [ destruct (upload_reply o) as [?|[]] | ] ] ] ] ] ] ];
  cbn zeta; cbn [fst snd].

(** Closes the goal of one way a turn can go: the worlds are written out,
    the tallies of the new events are computed, the rest is arithmetic. *)
Ltac tally :=
  cbn [stats trace fs with_stats add_events with_path after_lookup ready_world
       incr_skipped incr_downloads incr_posters incr_errors append_not_found
       set_total_scanned total_scanned already_exists_skipped not_found_list
       new_downloads plex_posters_updated errors] in *;
  rewrite ?count_app, ?length_app;
  cbn [count is_sleep is_lookup is_download is_upload is_image_failure
       length Z.eqb Pos.eqb];
  try lia.

Section RunTallies.
Context `{Runtime} (cfg : config).

Local Abbreviation turn := (fun w0 ao => (process_artist cfg ao.1 ao.2 w0).1).

(** A quantity that moves by an amount between [lo] and [hi] in every
    turn moves by as many times that over the loop. *)
Lemma turns_measure (mu : world -> Z) (lo hi : Z) artists w :
  (forall a o w0,
     lo <= mu (process_artist cfg a o w0).1 - mu w0 <= hi) ->
  Z.of_nat (length artists) * lo
  <= mu (fold_left turn artists w) - mu w
  <= Z.of_nat (length artists) * hi.
Proof.
  intros Hstep. revert w. induction artists as [|[a o] rest IH]; intros w.
  - cbn [fold_left length]. lia.
  - cbn [fold_left length]. specialize (IH (process_artist cfg a o w).1).
    specialize (Hstep a o w). cbn [fst snd] in *. lia.
Qed.

Lemma turn_accounted a o w :
  accounted (process_artist cfg a o w).1 = accounted w + 1.
Proof. unfold accounted. turn_cases cfg a o w; tally. Qed.

(** X4.  Every artist of a run is accounted for exactly once: the loop never
    raises, sets the number of scanned artists to the length of the list,
    and the artists skipped, listed as not found, downloaded and counted as
    errors, together with those whose image processing failed (which only
    the log shows), grow by exactly that number. *)
Theorem run_accounts_for_every_artist (artists : list (artist * oracle)) (w : world) :
  (main_loop cfg artists w).2 = inr tt
  /\ total_scanned (stats (main_loop cfg artists w).1) = Z.of_nat (length artists)
  /\ accounted (main_loop cfg artists w).1
     = accounted w + Z.of_nat (length artists)
  /\ (stats w = stats0 -> trace w = [] ->
      already_exists_skipped (stats (main_loop cfg artists w).1)
      + Z.of_nat (length (not_found_list (stats (main_loop cfg artists w).1)))
      + new_downloads (stats (main_loop cfg artists w).1)
      + errors (stats (main_loop cfg artists w).1)
      + Z.of_nat (count is_image_failure (trace (main_loop cfg artists w).1))
      = total_scanned (stats (main_loop cfg artists w).1)).
Proof.
  rewrite main_loop_turns. cbn [fst snd].
  set (w1 := with_stats (set_total_scanned (Z.of_nat (length artists))) w).
  assert (accounted (fold_left turn artists w1)
          = accounted w + Z.of_nat (length artists)) as Hacc.
  { pose proof (turns_measure accounted 1 1 artists w1) as Hm.
    assert (accounted w1 = accounted w) as <- by done.
    specialize (Hm ltac:(intros a o w0; rewrite turn_accounted; lia)). lia. }
  assert (total_scanned (stats (fold_left turn artists w1))
          = Z.of_nat (length artists)) as Htot.
  { apply (turns_invariant cfg
             (fun w' => total_scanned (stats w') = Z.of_nat (length artists)));
      [|done].
    intros a o w0 Hw0. rewrite <- Hw0. turn_cases cfg a o w0; tally; done. }
  split; [done|]. split; [done|]. split; [done|].
  intros Hst Htr. rewrite Htot. unfold accounted in Hacc.
  rewrite Hst, Htr in Hacc. cbn in Hacc. lia.
Qed.

(** X5.  The poster counter follows the downloads: over a run the posters
    counted are at most the uploads attempted, the uploads attempted are
    exactly the downloads counted when pushing to the library is enabled,
    and none otherwise (then the poster counter stays). *)
Theorem posters_follow_downloads (artists : list (artist * oracle)) (w : world) :
  plex_posters_updated (stats w)
  <= plex_posters_updated (stats (main_loop cfg artists w).1)
  /\ plex_posters_updated (stats (main_loop cfg artists w).1)
       - plex_posters_updated (stats w)
     <= Z.of_nat (count is_upload (trace (main_loop cfg artists w).1))
        - Z.of_nat (count is_upload (trace w))
  /\ Z.of_nat (count is_upload (trace (main_loop cfg artists w).1))
       - Z.of_nat (count is_upload (trace w))
     = (if UPDATE_PLEX cfg
        then new_downloads (stats (main_loop cfg artists w).1)
             - new_downloads (stats w)
        else 0).
Proof.
  rewrite main_loop_turns. cbn [fst snd].
  set (w1 := with_stats (set_total_scanned (Z.of_nat (length artists))) w).
  pose proof (turns_measure (fun w' => plex_posters_updated (stats w'))
                0 1 artists w1) as Hp.
  pose proof (turns_measure
                (fun w' => Z.of_nat (count is_upload (trace w'))
                           - plex_posters_updated (stats w'))
                0 1 artists w1) as Hup.
  pose proof (turns_measure
                (fun w' => Z.of_nat (count is_upload (trace w'))
                           - (if UPDATE_PLEX cfg then new_downloads (stats w') else 0))
                0 0 artists w1) as Hdl.
  specialize (Hp ltac:(intros a o w0; turn_cases cfg a o w0; tally)).
  specialize (Hup ltac:(intros a o w0; turn_cases cfg a o w0; tally)).
  specialize (Hdl ltac:(intros a o w0; turn_cases cfg a o w0; tally;
                         destruct (UPDATE_PLEX cfg); try discriminate; tally)).
  cbn beta in *. subst w1. tally. destruct (UPDATE_PLEX cfg); lia.
Qed.

(** X6.  One pause per lookup, one lookup per artist at most: over a run the
    pauses and the lookups sent to the provider grow by the same number,
    and that number plus the artists skipped is at most the number of
    artists; the downloads attempted are at most the lookups. *)
Theorem one_pause_per_lookup (artists : list (artist * oracle)) (w : world) :
  Z.of_nat (count is_sleep (trace (main_loop cfg artists w).1))
    - Z.of_nat (count is_sleep (trace w))
  = Z.of_nat (count is_lookup (trace (main_loop cfg artists w).1))
    - Z.of_nat (count is_lookup (trace w))
  /\ 0 <= Z.of_nat (count is_lookup (trace (main_loop cfg artists w).1))
          - Z.of_nat (count is_lookup (trace w))
  /\ (Z.of_nat (count is_lookup (trace (main_loop cfg artists w).1))
       - Z.of_nat (count is_lookup (trace w)))
     + (already_exists_skipped (stats (main_loop cfg artists w).1)
        - already_exists_skipped (stats w))
     <= Z.of_nat (length artists)
  /\ 0 <= Z.of_nat (count is_download (trace (main_loop cfg artists w).1))
          - Z.of_nat (count is_download (trace w))
       <= Z.of_nat (count is_lookup (trace (main_loop cfg artists w).1))
          - Z.of_nat (count is_lookup (trace w)).
Proof.
  rewrite main_loop_turns. cbn [fst snd].
  set (w1 := with_stats (set_total_scanned (Z.of_nat (length artists))) w).
  pose proof (turns_measure
                (fun w' => Z.of_nat (count is_sleep (trace w'))
                           - Z.of_nat (count is_lookup (trace w')))
                0 0 artists w1) as Hsl.
  pose proof (turns_measure
                (fun w' => Z.of_nat (count is_lookup (trace w'))
                           + already_exists_skipped (stats w'))
                0 1 artists w1) as Hlk.
  pose proof (turns_measure
                (fun w' => Z.of_nat (count is_lookup (trace w')))
                0 1 artists w1) as Hl0.
  pose proof (turns_measure
                (fun w' => Z.of_nat (count is_download (trace w')))
                0 1 artists w1) as Hd0.
  pose proof (turns_measure
                (fun w' => Z.of_nat (count is_lookup (trace w'))
                           - Z.of_nat (count is_download (trace w')))
                0 1 artists w1) as Hld.
  specialize (Hsl ltac:(intros a o w0; turn_cases cfg a o w0; tally)).
  specialize (Hlk ltac:(intros a o w0; turn_cases cfg a o w0; tally)).
  specialize (Hl0 ltac:(intros a o w0; turn_cases cfg a o w0; tally)).
  specialize (Hd0 ltac:(intros a o w0; turn_cases cfg a o w0; tally)).
  specialize (Hld ltac:(intros a o w0; turn_cases cfg a o w0; tally)).
  cbn beta in *. subst w1. tally.
Qed.

End RunTallies.

Section RunInvariants.
Context `{Runtime} (cfg : config).

Local Abbreviation turn := (fun w0 ao => (process_artist cfg ao.1 ao.2 w0).1).

Lemma turn_keeps a o w :
  fs w ⊆ fs (process_artist cfg a o w).1
  /\ not_found_list (stats w) `prefix_of` not_found_list (stats (process_artist cfg a o w).1)
  /\ trace w `prefix_of` trace (process_artist cfg a o w).1.
Proof.
  turn_cases cfg a o w; tally;
    (split; [set_solver|]); (split; [|try rewrite <- !app_assoc]);
    try done; by apply prefix_app_r.
Qed.

(** X7.  A run only adds: no path that existed is gone afterwards, the
    not-found list and the trace keep what they held and grow at the end,
    and no counter goes down. *)
Theorem run_only_adds (artists : list (artist * oracle)) (w : world) :
  fs w ⊆ fs (main_loop cfg artists w).1
  /\ not_found_list (stats w)
     `prefix_of` not_found_list (stats (main_loop cfg artists w).1)
  /\ trace w `prefix_of` trace (main_loop cfg artists w).1
  /\ already_exists_skipped (stats w)
     <= already_exists_skipped (stats (main_loop cfg artists w).1)
  /\ new_downloads (stats w) <= new_downloads (stats (main_loop cfg artists w).1)
  /\ plex_posters_updated (stats w)
     <= plex_posters_updated (stats (main_loop cfg artists w).1)
  /\ errors (stats w) <= errors (stats (main_loop cfg artists w).1).
Proof.
  rewrite main_loop_turns. cbn [fst snd].
  set (w1 := with_stats (set_total_scanned (Z.of_nat (length artists))) w).
  assert (fs w ⊆ fs (fold_left turn artists w1)
          /\ not_found_list (stats w)
             `prefix_of` not_found_list (stats (fold_left turn artists w1))
          /\ trace w `prefix_of` trace (fold_left turn artists w1)) as Hkeep.
  { apply (turns_invariant cfg
      (fun w' => fs w ⊆ fs w'
         /\ not_found_list (stats w) `prefix_of` not_found_list (stats w')
         /\ trace w `prefix_of` trace w')); [|done].
    intros a o w0 (Hf & Hn & Ht).
    destruct (turn_keeps a o w0) as (Hf' & Hn' & Ht').
    split; [set_solver|]. split; by etrans. }
  pose proof (turns_measure cfg (fun w' => already_exists_skipped (stats w'))
                0 1 artists w1
                ltac:(intros a o w0; turn_cases cfg a o w0; tally)) as Hsk.
  pose proof (turns_measure cfg (fun w' => new_downloads (stats w'))
                0 1 artists w1
                ltac:(intros a o w0; turn_cases cfg a o w0; tally)) as Hdl.
  pose proof (turns_measure cfg (fun w' => plex_posters_updated (stats w'))
                0 1 artists w1
                ltac:(intros a o w0; turn_cases cfg a o w0; tally)) as Hpo.
  pose proof (turns_measure cfg (fun w' => errors (stats w'))
                0 1 artists w1
                ltac:(intros a o w0; turn_cases cfg a o w0; tally)) as Her.
  destruct Hkeep as (Hf & Hn & Ht).
  cbn beta in *. subst w1. tally.
  repeat split; try done; lia.
Qed.


Lemma forced_turn_never_skips a o w :
  FORCE_REFRESH cfg = true ->
  already_exists_skipped (stats (process_artist cfg a o w).1)
  = already_exists_skipped (stats w).
Proof.
  intros Hforce. turn_cases cfg a o w; tally.
  unfold skips in Hs. rewrite Hforce, andb_false_r in Hs. done.
Qed.

(** X9.  With force-refresh enabled no artist is ever skipped: the skip counter
    stays where it was over the whole run, whatever files exist. *)
Theorem forced_run_never_skips
    (artists : list (artist * oracle)) (w : world)
    (Hforce : FORCE_REFRESH cfg = true) :
  already_exists_skipped (stats (main_loop cfg artists w).1)
  = already_exists_skipped (stats w).
Proof.
  rewrite main_loop_turns. cbn [fst].
  pose proof (turns_measure cfg (fun w' => already_exists_skipped (stats w'))
                0 0 artists
                (with_stats (set_total_scanned (Z.of_nat (length artists))) w)
                ltac:(intros a o w0; cbn beta; rewrite forced_turn_never_skips by done; lia))
    as Hsk.
  cbn beta in Hsk. tally.
Qed.

End RunInvariants.

(** ** Edges of one turn *)

Section TurnEdges.
Context `{Runtime} (cfg : config).

(** X3.  When every step after a resolved lookup succeeds, the turn counts one
    download and nothing else but, when pushing to the library is enabled
    and the upload succeeds, one poster: the artist's directory and image
    exist afterwards, the square canvas of the decoded image was handed to
    the encoder under the image path, and the not-found list, the error
    counter and the skip counter are as before. *)
Theorem successful_turn
    (a : artist) (o : oracle) (w : world) (m : string) (v : pyval) (d : string)
    (res : response) (img : image)
    (Hres : resolved cfg a o w m v d)
    (Hmk : makedirs_reply o = inr tt)
    (Hreply : image_reply o = inr res)
    (Hstatus : (400 <=? status_code res) && (status_code res <? 600) = false)
    (Hdecode : image_open (content res) = inr img)
    (Hsave : save_reply o = inr tt) :
  new_downloads (stats (process_artist cfg a o w).1) = new_downloads (stats w) + 1
  /\ plex_posters_updated (stats (process_artist cfg a o w).1)
     = plex_posters_updated (stats w)
       + (if UPDATE_PLEX cfg
          then match upload_reply o with inr _ => 1 | inl _ => 0 end
          else 0)
  /\ not_found_list (stats (process_artist cfg a o w).1) = not_found_list (stats w)
  /\ errors (stats (process_artist cfg a o w).1) = errors (stats w)
  /\ already_exists_skipped (stats (process_artist cfg a o w).1)
     = already_exists_skipped (stats w)
  /\ artist_dir a ∈ fs (process_artist cfg a o w).1
  /\ img_path a ∈ fs (process_artist cfg a o w).1
  /\ SaveJpeg (img_path a) (square_canvas img) 95
     ∈ trace (process_artist cfg a o w).1.
Proof.
  rewrite (exit_resolved cfg a o w m v d Hres), Hmk, process_image_unfold,
    Hreply, Hstatus, Hdecode, Hsave.
  cbn zeta. cbn [fst snd].
  destruct (UPDATE_PLEX cfg); [destruct (upload_reply o) as [pe|[]]|];
    cbn [fst snd]; tally; repeat split; try lia; try done; set_solver.
Qed.

(** X10.  A payload of the wrong shape ends in the [except] clause.  On an
    accepted match with a truthy HD entry whose first asset's URL cannot be
    read, [get_logo] returns [None] with the text of that exception, and
    the SD list is never tried, whatever it holds; so for a first HD asset
    that is a dict without the key url.  A payload that is not a dict at
    all gives [None] with the text of the missing attribute. *)
Theorem malformed_payload_is_connection_error
    (o : oracle) (mbid plex_name : string) (w : world) (res : response)
    (data : pyval)
    (Hreply : fanart_reply o = inr res)
    (Hstatus : status_code res = 200)
    (Hjson : json res = inr data) :
  (forall fanart_name score hd e,
     dict_get data "name" (PStr "Unknown") = inr fanart_name ->
     token_sort_ratio plex_name fanart_name = inr score ->
     (inject_Z (FUZZY_THRESHOLD cfg) <= score)%Q ->
     dict_get data "hdmusiclogo" (PList []) = inr hd -> truthy hd = true ->
     match getitem_0 hd with
     | inl e' => inl e'
     | inr first => getitem_str first "url"
     end = inl e ->
     get_logo cfg o mbid plex_name w
     = (after_lookup cfg mbid w, inr (PNone, "Connection Error: " +:+ exn_str e)))
  /\ (forall fanart_name score asset rest,
     dict_get data "name" (PStr "Unknown") = inr fanart_name ->
     token_sort_ratio plex_name fanart_name = inr score ->
     (inject_Z (FUZZY_THRESHOLD cfg) <= score)%Q ->
     dict_get data "hdmusiclogo" (PList []) = inr (PList (PDict asset :: rest)) ->
     assoc "url" asset = None ->
     get_logo cfg o mbid plex_name w
     = (after_lookup cfg mbid w,
        inr (PNone, "Connection Error: " +:+ exn_str (KeyError (PStr "url")))))
  /\ ((forall items, data <> PDict items) ->
     get_logo cfg o mbid plex_name w
     = (after_lookup cfg mbid w,
        inr (PNone, "Connection Error: " +:+ exn_str (AttributeError data "get")))).
Proof.
  assert (forall fanart_name score hd e,
     dict_get data "name" (PStr "Unknown") = inr fanart_name ->
     token_sort_ratio plex_name fanart_name = inr score ->
     (inject_Z (FUZZY_THRESHOLD cfg) <= score)%Q ->
     dict_get data "hdmusiclogo" (PList []) = inr hd -> truthy hd = true ->
     match getitem_0 hd with
     | inl e' => inl e'
     | inr first => getitem_str first "url"
     end = inl e ->
     get_logo cfg o mbid plex_name w
     = (after_lookup cfg mbid w, inr (PNone, "Connection Error: " +:+ exn_str e)))
    as Hgen.
  { intros fanart_name score hd e Hname Hscore Hacc Hhd Ht Hfail.
    apply score_lt_false in Hacc.
    rewrite get_logo_unfold, Hreply, Hstatus, Hjson, Hname, Hscore, Hacc.
    cbn [Z.eqb Pos.eqb]. unfold select_asset. unfold_m. rewrite Hhd.
    destruct data; try discriminate. cbn [dict_get]. rewrite Ht.
    destruct (getitem_0 hd) as [e'|first]; [by injection Hfail as ->|].
    by rewrite Hfail. }
  split; [exact Hgen|]. split.
  - intros fanart_name score asset rest Hname Hscore Hacc Hhd Hurl.
    apply (Hgen fanart_name score (PList (PDict asset :: rest))); try done.
    cbn [getitem_0 getitem_str]. by rewrite Hurl.
  - intros Hshape. rewrite get_logo_unfold, Hreply, Hstatus, Hjson.
    cbn [Z.eqb Pos.eqb]. destruct data; try done. by destruct (Hshape d).
Qed.

(** X11.  A payload without the key name is scored against the literal text
    Unknown: below the threshold the rejection names the provider's artist
    as Unknown, and otherwise the asset selection goes ahead. *)
Theorem missing_name_is_scored_as_unknown
    (o : oracle) (mbid plex_name : string) (w : world) (res : response)
    (items : list (string * pyval)) (score : Q)
    (Hreply : fanart_reply o = inr res)
    (Hstatus : status_code res = 200)
    (Hjson : json res = inr (PDict items))
    (Hname : assoc "name" items = None)
    (Hscore : token_sort_ratio plex_name (PStr "Unknown") = inr score) :
  ((score < inject_Z (FUZZY_THRESHOLD cfg))%Q ->
     get_logo cfg o mbid plex_name w
     = (after_lookup cfg mbid w,
        inr (PNone, "Fuzzy Match Failed (Score: " +:+ float_str score
                    +:+ ", Fanart Name: '" +:+ "Unknown" +:+ "')")))
  /\ ((inject_Z (FUZZY_THRESHOLD cfg) <= score)%Q ->
     get_logo cfg o mbid plex_name w
     = try_except (select_asset (PDict items) score) connection_error
         (after_lookup cfg mbid w)).
Proof.
  rewrite get_logo_unfold, Hreply, Hstatus, Hjson. cbn [Z.eqb Pos.eqb dict_get].
  rewrite Hname. cbn [default from_option]. rewrite Hscore. split.
  - intros Hlt%score_lt_true. by rewrite Hlt.
  - intros Hle%score_lt_false. by rewrite Hle.
Qed.

(** X12.  An accepted match whose first HD asset has an empty or null URL is
    recorded as not found, with the success text as its reason: the value
    returned is falsy, so line 139 takes the not-found branch; the SD list
    is not tried and no directory is made. *)
Theorem falsy_url_is_recorded_as_not_found
    (a : artist) (o : oracle) (w : world) (m : string) (res : response)
    (data fanart_name : pyval) (score : Q)
    (asset : list (string * pyval)) (rest : list pyval) (u : pyval)
    (Hskip : skips cfg a w = false)
    (Hid : next_mbid (guids a) = Some m) (Hne : m <> "")
    (Hreply : fanart_reply o = inr res)
    (Hstatus : status_code res = 200)
    (Hjson : json res = inr data)
    (Hname : dict_get data "name" (PStr "Unknown") = inr fanart_name)
    (Hscore : token_sort_ratio (title a) fanart_name = inr score)
    (Haccept : (inject_Z (FUZZY_THRESHOLD cfg) <= score)%Q)
    (Hhd : dict_get data "hdmusiclogo" (PList []) = inr (PList (PDict asset :: rest)))
    (Hurl : assoc "url" asset = Some u)
    (Hfalsy : truthy u = false) :
  process_artist cfg a o w
  = ({| stats := append_not_found
                   (title a +:+ " | " +:+ "Success (HD) - Match: "
                    +:+ float_str score +:+ "%") (stats w);
        fs := fs w;
        trace := trace w
          ++ [Sleep; HttpGet (PStr (fanart_url cfg m)) 10;
              Log LvWarning
                (MsgMissing (title a)
                   ("Success (HD) - Match: " +:+ float_str score +:+ "%"))] |},
     inr tt).
Proof.
  rewrite (exit_unresolved cfg a o w m u
             ("Success (HD) - Match: " +:+ float_str score +:+ "%")); try done.
  - unfold after_lookup, add_events, with_stats. cbn [stats fs trace].
    by rewrite <- app_assoc.
  - apply score_lt_false in Haccept.
    rewrite get_logo_unfold, Hreply, Hstatus, Hjson, Hname, Hscore, Haccept.
    cbn [Z.eqb Pos.eqb]. unfold try_except.
    by rewrite (select_asset_hd _ _ _ _ _ _ Hhd Hurl).
Qed.

End TurnEdges.

(** ** Sanitized names and image paths *)

Module PathFacts.
Import Str StrFacts.

Lemma length_chars s : length (chars s) = String.length s.
Proof. induction s as [|c s IH]; [done|]. rewrite chars_cons. cbn. by rewrite IH. Qed.

Lemma append_inj_l a x y : a +:+ x = a +:+ y -> x = y.
Proof.
  intros E. apply chars_inj. apply (f_equal chars) in E.
  rewrite !chars_app in E. by apply app_inv_head in E.
Qed.

Lemma append_inj_r b x y : x +:+ b = y +:+ b -> x = y.
Proof.
  intros E. apply chars_inj. apply (f_equal chars) in E.
  rewrite !chars_app in E. by apply app_inv_tail in E.
Qed.

Lemma re_sub_class_id cls s :
  Forall (fun c => c ∉ cls) (chars s) -> re_sub_class cls "" s = s.
Proof.
  induction s as [|c s IH]; [done|]. rewrite chars_cons, Forall_cons.
  intros [Hc Hs]. cbn [re_sub_class]. unfold in_class.
  rewrite bool_decide_eq_false_2 by done. by rewrite IH.
Qed.

(** No character of a sanitized name is one of the nine removed. *)
Lemma sanitize_legal name :
  Forall (fun c => c ∉ illegal_chars) (chars (sanitize name)).
Proof.
  unfold sanitize.
  destruct (strip_decomp (re_sub_class illegal_chars "" name)) as (l & r & E & _ & _).
  assert (Forall (fun c => c ∉ illegal_chars)
            (chars (re_sub_class illegal_chars "" name))) as Hall.
  { rewrite re_sub_class_chars. apply Forall_forall.
    by intros c [Hc _]%list_elem_of_filter. }
  rewrite E, !chars_app, !Forall_app in Hall. tauto.
Qed.

Lemma slash_illegal : "/"%char ∈ illegal_chars.
Proof. unfold illegal_chars. set_solver. Qed.

Lemma startswith_slash_false s :
  "/"%char ∉ chars s -> startswith "/" s = false.
Proof.
  destruct s as [|c s]; [done|]. rewrite chars_cons, not_elem_of_cons.
  intros [Hc _]. cbn [startswith]. by rewrite bool_decide_eq_false_2.
Qed.

Lemma endswith_slash_false s :
  "/"%char ∉ chars s -> endswith "/" s = false.
Proof.
  induction s as [|c s IH]; [done|]. rewrite chars_cons, not_elem_of_cons.
  intros [Hc Hs]. cbn [endswith]. rewrite IH by done.
  rewrite bool_decide_eq_false_2; [done|]. intros [= -> _]. done.
Qed.

Lemma endswith_slash_app x s :
  s <> "" -> "/"%char ∉ chars s -> endswith "/" (x +:+ s) = false.
Proof.
  intros Hne Hs. induction x as [|c x IH].
  - by apply endswith_slash_false.
  - rewrite append_cons. cbn [endswith]. rewrite IH.
    rewrite bool_decide_eq_false_2; [done|]. intros [= _ E].
    destruct x; [by destruct s|]. by rewrite append_cons in E.
Qed.

Lemma sanitize_no_slash name : "/"%char ∉ chars (sanitize name).
Proof.
  intros Hin. pose proof (sanitize_legal name) as Hall.
  rewrite Forall_forall in Hall. apply (Hall _ Hin), slash_illegal.
Qed.

(** The directory of an artist is the output root, a slash, and the
    sanitized name. *)
Lemma artist_dir_shape a :
  artist_dir a = BASE_OUTPUT_DIR +:+ "/" +:+ sanitize (title a).
Proof.
  unfold artist_dir, path_join.
  by rewrite startswith_slash_false by apply sanitize_no_slash.
Qed.

Lemma img_path_shape a :
  img_path a
  = BASE_OUTPUT_DIR +:+ "/" +:+ sanitize (title a)
    +:+ (if bool_decide (sanitize (title a) = "") then "" else "/")
    +:+ "artist.jpg".
Proof.
  unfold img_path. rewrite artist_dir_shape. unfold path_join.
  change (startswith "/" "artist.jpg") with false. cbn match.
  rewrite (bool_decide_eq_false_2 (_ = "")) by done. cbn [orb].
  case_bool_decide as Hs.
  - rewrite Hs. reflexivity.
  - rewrite <- (append_assoc BASE_OUTPUT_DIR "/" (sanitize (title a))).
    rewrite (endswith_slash_app (BASE_OUTPUT_DIR +:+ "/") (sanitize (title a)))
      by (done || apply sanitize_no_slash).
    by rewrite !append_assoc.
Qed.

Lemma img_path_not_dir a : img_path a <> artist_dir a.
Proof.
  rewrite img_path_shape, artist_dir_shape.
  intros E. apply (f_equal String.length) in E.
  rewrite <- !append_assoc, !length_append in E.
  cbn in E. lia.
Qed.

End PathFacts.

(** X16.  [sanitize] is idempotent and only ever shortens: a sanitized name holds
    none of the nine removed characters and no whitespace at its ends, so
    sanitizing it again returns it unchanged, and it is never longer than
    the name it comes from. *)
Theorem sanitize_idempotent (name : string) :
  sanitize (sanitize name) = sanitize name
  /\ Forall (fun c => c ∉ Str.illegal_chars) (Str.chars (sanitize name))
  /\ Str.trimmed (sanitize name)
  /\ (String.length (sanitize name) <= String.length name)%nat.
Proof.
  pose proof (PathFacts.sanitize_legal name) as Hlegal.
  assert (Str.trimmed (sanitize name)) as Htrim by apply StrFacts.strip_trimmed.
  split; [|split; [done|split; [done|]]].
  - unfold sanitize at 1. rewrite PathFacts.re_sub_class_id by done.
    by apply StrFacts.strip_trimmed_id.
  - unfold sanitize.
    destruct (StrFacts.strip_decomp (Str.re_sub_class Str.illegal_chars "" name))
      as (l & r & E & _ & _).
    apply (f_equal (fun s => length (Str.chars s))) in E.
    rewrite !StrFacts.chars_app, !length_app, StrFacts.re_sub_class_chars in E.
    pose proof (length_filter (fun c => c ∉ Str.illegal_chars) (Str.chars name)) as Hf.
    rewrite <- !PathFacts.length_chars. lia.
Qed.

(** X17.  The image path is keyed by the sanitized name and by nothing else: it
    is the output root, a slash, the sanitized name, a slash unless that
    name is empty, and artist.jpg; so two artists share their image path
    exactly when their names sanitize alike, and every artist whose
    sanitized name is empty (a name made of removed characters and
    whitespace) uses the one path artist.jpg directly under the root. *)
Theorem img_path_keyed_by_sanitized_name (a1 a2 : artist) :
  img_path a1
  = BASE_OUTPUT_DIR +:+ "/" +:+ sanitize (title a1)
    +:+ (if bool_decide (sanitize (title a1) = "") then "" else "/")
    +:+ "artist.jpg"
  /\ (img_path a1 = img_path a2 <-> sanitize (title a1) = sanitize (title a2))
  /\ (sanitize (title a1) = "" -> img_path a1 = "/app/ArtistLogos/artist.jpg")
  /\ img_path a1 <> artist_dir a1.
Proof.
  split; [apply PathFacts.img_path_shape|]. split; [|split].
  - split.
    + rewrite !PathFacts.img_path_shape.
      intros E%PathFacts.append_inj_l%PathFacts.append_inj_l.
      destruct (decide (sanitize (title a1) = "")) as [H1|H1];
        destruct (decide (sanitize (title a2) = "")) as [H2|H2];
        rewrite ?(bool_decide_eq_true_2 _ H1), ?(bool_decide_eq_false_2 _ H1),
          ?(bool_decide_eq_true_2 _ H2), ?(bool_decide_eq_false_2 _ H2) in E.
      * congruence.
      * exfalso. rewrite H1 in E. apply (f_equal String.length) in E.
        rewrite !StrFacts.length_append in E. cbn in E. lia.
      * exfalso. rewrite H2 in E. apply (f_equal String.length) in E.
        rewrite !StrFacts.length_append in E. cbn in E. lia.
      * by apply PathFacts.append_inj_r in E.
    + intros E. unfold img_path, artist_dir. by rewrite E.
  - intros E. rewrite PathFacts.img_path_shape, E. reflexivity.
  - apply PathFacts.img_path_not_dir.
Qed.

(** ** What a failed download leaves behind *)

Section AfterFailure.
Context `{Runtime} (cfg : config).

(** X14.  A failed image step is retried on the next run.  When the lookup
    resolved and the directory was made but [process_image] returned
    [False] without leaving a file, the turn leaves the artist's directory
    behind, empty of the image that was not there before; the statistics
    are untouched, and the next turn of that artist is not skipped. *)
Theorem failed_download_is_retried
    (a : artist) (o : oracle) (w : world) (m : string) (v : pyval) (d : string)
    (Hres : resolved cfg a o w m v d)
    (Hmk : makedirs_reply o = inr tt)
    (Hfail : (process_image o v (img_path a) (ready_world cfg a m w)).2 = inr false)
    (Hclean : save_leaves_file o = false)
    (Habsent : img_path a ∉ fs w) :
  artist_dir a ∈ fs (process_artist cfg a o w).1
  /\ (img_path a ∉ fs (process_artist cfg a o w).1)
  /\ skips cfg a (process_artist cfg a o w).1 = false
  /\ stats (process_artist cfg a o w).1 = stats w.
Proof.
  pose proof (PathFacts.img_path_not_dir a) as Hneq.
  assert (img_path a ∉ {[artist_dir a]} ∪ fs w) as Hnot.
  { intros [E%elem_of_singleton|Hin]%elem_of_union; [by apply Hneq | by apply Habsent]. }
  assert (forall evs,
            let w' := add_events evs (ready_world cfg a m w) in
            artist_dir a ∈ fs w' /\ (img_path a ∉ fs w')
            /\ skips cfg a w' = false /\ stats w' = stats w) as Hgoal.
  { intros evs. cbn zeta. unfold skips. tally.
    split; [set_solver|]. split; [done|].
    split; [by rewrite bool_decide_eq_false_2|done]. }
  revert Hfail.
  rewrite (exit_resolved cfg a o w m v d Hres), Hmk, process_image_unfold.
  destruct (image_reply o) as [e|res].
  { intros _. cbn [fst snd]. apply Hgoal. }
  destruct ((400 <=? status_code res) && (status_code res <? 600)).
  { intros _. cbn [fst snd]. apply Hgoal. }
  destruct (image_open (content res)) as [e|img].
  { intros _. cbn [fst snd]. apply Hgoal. }
  destruct (save_reply o) as [e|[]]; [|done].
  rewrite Hclean. intros _. cbn zeta. cbn [fst snd].
  rewrite add_events_app. apply Hgoal.
Qed.

(** X15.  A failed save that leaves a file at the image path blocks the retry:
    no download is counted and the artist is not listed as not found, yet
    the file is in place, and with force-refresh disabled every later turn
    of that artist is skipped. *)
Theorem leftover_file_blocks_retry
    (a : artist) (o : oracle) (w : world) (m : string) (v : pyval) (d : string)
    (res : response) (img : image) (e : exn)
    (Hres : resolved cfg a o w m v d)
    (Hmk : makedirs_reply o = inr tt)
    (Hreply : image_reply o = inr res)
    (Hstatus : (400 <=? status_code res) && (status_code res <? 600) = false)
    (Hdecode : image_open (content res) = inr img)
    (Hsave : save_reply o = inl e)
    (Hleft : save_leaves_file o = true)
    (Hforce : FORCE_REFRESH cfg = false) :
  stats (process_artist cfg a o w).1 = stats w
  /\ img_path a ∈ fs (process_artist cfg a o w).1
  /\ forall o2,
       process_artist cfg a o2 (process_artist cfg a o w).1
       = (with_stats incr_skipped (process_artist cfg a o w).1, inr tt).
Proof.
  rewrite (exit_resolved cfg a o w m v d Hres), Hmk, process_image_unfold,
    Hreply, Hstatus, Hdecode, Hsave, Hleft.
  cbn zeta. cbn [fst snd].
  assert (img_path a ∈ {[img_path a]} ∪ ({[artist_dir a]} ∪ fs w)) as Hin by set_solver.
  split; [done|]. split; [exact Hin|].
  intros o2. apply exit_skip. unfold skips. tally.
  by rewrite bool_decide_eq_true_2, Hforce.
Qed.

End AfterFailure.

(** ** Flags of the environment *)

Module EnvFacts.
Import Env.

Ltac by_cases_of_char c :=
  destruct c as [[] [] [] [] [] [] [] []]; vm_compute;
  (split; [intros E; first [discriminate E | auto]
          | intros [E|E]; first [discriminate E | reflexivity]]).

Lemma lower_char_t c : lower_char c = "t"%char <-> c = "t"%char \/ c = "T"%char.
Proof. by_cases_of_char c. Qed.

Lemma lower_char_r c : lower_char c = "r"%char <-> c = "r"%char \/ c = "R"%char.
Proof. by_cases_of_char c. Qed.

Lemma lower_char_u c : lower_char c = "u"%char <-> c = "u"%char \/ c = "U"%char.
Proof. by_cases_of_char c. Qed.

Lemma lower_char_e c : lower_char c = "e"%char <-> c = "e"%char \/ c = "E"%char.
Proof. by_cases_of_char c. Qed.

Lemma lower_is_true s :
  lower s = "true" <->
  exists c1 c2 c3 c4,
    s = String c1 (String c2 (String c3 (String c4 "")))
    /\ (c1 = "t"%char \/ c1 = "T"%char) /\ (c2 = "r"%char \/ c2 = "R"%char)
    /\ (c3 = "u"%char \/ c3 = "U"%char) /\ (c4 = "e"%char \/ c4 = "E"%char).
Proof.
  split.
  - destruct s as [|c1 [|c2 [|c3 [|c4 [|c5 s]]]]]; cbn [lower]; try discriminate.
    intros [= H1 H2 H3 H4]. exists c1, c2, c3, c4.
    rewrite <- lower_char_t, <- lower_char_r, <- lower_char_u, <- lower_char_e.
    by repeat split.
  - intros (c1 & c2 & c3 & c4 & -> & H1 & H2 & H3 & H4). cbn [lower].
    apply lower_char_t in H1. apply lower_char_r in H2.
    apply lower_char_u in H3. apply lower_char_e in H4.
    by rewrite H1, H2, H3, H4.
Qed.

End EnvFacts.

(** X18.  A flag of the environment (UPDATE_PLEX, FORCE_REFRESH) is on exactly
    when the variable is set to the four letters of true, each in either
    case: an unset variable leaves it off, and so does every other text,
    such as 1, yes, on, or true with a space around it. *)
Theorem env_flag_true_iff (env : gmap string string) (key : string) :
  Env.env_flag env key = true <->
  exists c1 c2 c3 c4,
    env !! key = Some (String c1 (String c2 (String c3 (String c4 ""))))
    /\ (c1 = "t"%char \/ c1 = "T"%char) /\ (c2 = "r"%char \/ c2 = "R"%char)
    /\ (c3 = "u"%char \/ c3 = "U"%char) /\ (c4 = "e"%char \/ c4 = "E"%char).
Proof.
  unfold Env.env_flag, Env.environ_get. rewrite bool_decide_eq_true.
  destruct (env !! key) as [value|]; cbn [from_option id].
  - rewrite EnvFacts.lower_is_true. split.
    + intros (c1 & c2 & c3 & c4 & -> & Hc). by exists c1, c2, c3, c4.
    + intros (c1 & c2 & c3 & c4 & [= ->] & Hc). by exists c1, c2, c3, c4.
  - split; [discriminate|]. by intros (c1 & c2 & c3 & c4 & [=] & _).
Qed.

(** ** The report *)

Module ReportFacts.
Import Str StrFacts Report.

(** Scanning a piece without line break only moves it into the piece
    being read. *)
Lemma split_go_piece a cur fuel rest :
  nl ∉ chars a ->
  split_go (String.length a + fuel) newline cur (a +:+ rest)
  = split_go fuel newline (cur +:+ a) rest.
Proof.
  revert cur. induction a as [|c a IH]; intros cur Ha.
  - by rewrite append_nil_l, append_nil_r.
  - rewrite chars_cons, not_elem_of_cons in Ha. destruct Ha as [Hc Ha].
    rewrite append_cons. cbn [String.length Nat.add split_go].
    assert (startswith newline (String c (a +:+ rest)) = false) as ->.
    { unfold newline. cbn [startswith].
      by rewrite bool_decide_eq_false_2. }
    rewrite IH by done. by rewrite append_assoc.
Qed.

Lemma split_single a : nl ∉ chars a -> split newline a = [a].
Proof.
  intros Ha. unfold split.
  pose proof (split_go_piece a "" 1 "" Ha) as E.
  rewrite append_nil_r, append_nil_l in E.
  replace (S (String.length a)) with (String.length a + 1)%nat by lia.
  by rewrite E.
Qed.

Lemma split_cons a rest :
  nl ∉ chars a ->
  split newline (a +:+ newline +:+ rest) = a :: split newline rest.
Proof.
  intros Ha. unfold split.
  rewrite !length_append.
  replace (S (String.length a + (String.length newline + String.length rest)))
    with (String.length a + S (S (String.length rest)))%nat
    by (unfold newline; cbn [String.length]; lia).
  rewrite split_go_piece by done. rewrite append_nil_l.
  unfold newline at 1 2. rewrite append_cons, append_nil_l.
  cbn [split_go]. unfold newline at 1. cbn [startswith].
  rewrite bool_decide_eq_true_2 by done. cbn [andb].
  unfold newline. by cbn [String.length drop].
Qed.

(** Splitting at the line breaks undoes the join of lines without line
    break. *)
Lemma split_join l :
  l <> [] -> Forall (fun x => nl ∉ chars x) l -> split newline (join newline l) = l.
Proof.
  intros Hne Hl. induction Hl as [|x l Hx Hl IH]; [done|].
  destruct l as [|y l].
  - cbn [join]. by apply split_single.
  - cbn [join]. cbn [join] in IH. rewrite split_cons by done.
    by rewrite IH.
Qed.

Lemma rule_no_newline : nl ∉ chars rule.
Proof. vm_compute. intros Hin. by repeat (apply elem_of_cons in Hin as [[=]|Hin]);
  apply elem_of_nil in Hin. Qed.

Lemma header_no_newline ts : nl ∉ chars ts -> nl ∉ chars (header ts).
Proof.
  intros Hts. unfold header. rewrite chars_app, elem_of_app.
  intros [Hin|Hin]; [|done]. revert Hin. vm_compute. intros Hin.
  by repeat (apply elem_of_cons in Hin as [[=]|Hin]); apply elem_of_nil in Hin.
Qed.

End ReportFacts.

(** X19.  The report lists the unresolved artists one per line, in the order in
    which they were recorded, after its two heading lines: when neither the
    timestamp nor any entry holds a line break, splitting the text at the
    line breaks gives the heading, the rule of fifty equals signs, and then
    exactly the entries of the not-found list; an empty list leaves one
    empty line after the rule. *)
Theorem report_lines_are_the_not_found_list (timestamp : string) (s : Stats)
    (Hts : Report.nl ∉ Str.chars timestamp)
    (Hentries : Forall (fun x => Report.nl ∉ Str.chars x) (not_found_list s)) :
  Str.split Report.newline (Report.missing_report timestamp s)
  = Report.header timestamp :: Report.rule
    :: match not_found_list s with
       | [] => [""]
       | _ :: _ => not_found_list s
       end.
Proof.
  unfold Report.missing_report.
  rewrite !StrFacts.append_assoc.
  rewrite ReportFacts.split_cons by by apply ReportFacts.header_no_newline.
  rewrite ReportFacts.split_cons by apply ReportFacts.rule_no_newline.
  do 2 f_equal.
  destruct (not_found_list s) as [|x l] eqn:E.
  - reflexivity.
  - by apply ReportFacts.split_join.
Qed.

(** ** The properties above at concrete inputs *)


(** The image of Foo in place and force-refresh enabled: no skip. *)
Lemma forced_run_never_skips_witness :
  already_exists_skipped
    (stats (@main_loop Demo.runtime Demo.cfg_force
              [(Demo.foo, Demo.oracle_ok Demo.payload_foo)]
              (with_path Demo.foo_image Demo.w0)).1) = 0.
Proof.
  exact (@forced_run_never_skips Demo.runtime Demo.cfg_force
           [(Demo.foo, Demo.oracle_ok Demo.payload_foo)]
           (with_path Demo.foo_image Demo.w0) eq_refl).
Defined.

(** The artist Foo, every step succeeding. *)
Lemma successful_turn_witness :
  new_downloads
    (stats (@process_artist Demo.runtime Demo.cfg Demo.foo
              (Demo.oracle_ok Demo.payload_foo) Demo.w0).1) = 0 + 1
  /\ not_found_list
       (stats (@process_artist Demo.runtime Demo.cfg Demo.foo
                 (Demo.oracle_ok Demo.payload_foo) Demo.w0).1) = []
  /\ img_path Demo.foo
     ∈ fs (@process_artist Demo.runtime Demo.cfg Demo.foo
             (Demo.oracle_ok Demo.payload_foo) Demo.w0).1.
Proof.
  pose proof (@successful_turn Demo.runtime Demo.cfg Demo.foo
                (Demo.oracle_ok Demo.payload_foo) Demo.w0
                "1234" (PStr "http://img/hd.png") "Success (HD) - Match: 100.0%"
                _ Demo.logo
                (demo_foo_resolved (Demo.oracle_ok Demo.payload_foo) eq_refl)
                eq_refl eq_refl eq_refl eq_refl eq_refl)
    as (Hdl & _ & Hnf & _ & _ & _ & Himg & _).
  split; [exact Hdl|]. split; [exact Hnf | exact Himg].
Defined.

(** A first HD asset without URL, with a usable SD asset beside it. *)
Lemma malformed_payload_is_connection_error_witness :
  @get_logo Demo.runtime Demo.cfg (Demo.oracle_ok Demo.payload_no_url) "1234" "Foo" Demo.w0
  = (after_lookup Demo.cfg "1234" Demo.w0, inr (PNone, "Connection Error: error")).
Proof.
  assert (inject_Z (FUZZY_THRESHOLD Demo.cfg) <= inject_Z 100)%Q as Hacc
    by (vm_compute; discriminate).
  exact (proj1 (proj2 (@malformed_payload_is_connection_error Demo.runtime Demo.cfg
           (Demo.oracle_ok Demo.payload_no_url) "1234" "Foo" Demo.w0 _
           Demo.payload_no_url eq_refl eq_refl eq_refl))
         (PStr "Foo") (inject_Z 100) [("id", PStr "1")] []
         eq_refl eq_refl Hacc eq_refl eq_refl).
Defined.

(** A payload without name, for the artist Foo. *)
Lemma missing_name_is_scored_as_unknown_witness :
  @get_logo Demo.runtime Demo.cfg (Demo.oracle_ok Demo.payload_no_name) "1234" "Foo" Demo.w0
  = (after_lookup Demo.cfg "1234" Demo.w0,
     inr (PNone, "Fuzzy Match Failed (Score: 0.0, Fanart Name: 'Unknown')")).
Proof.
  apply (proj1 (@missing_name_is_scored_as_unknown Demo.runtime Demo.cfg
                  (Demo.oracle_ok Demo.payload_no_name) "1234" "Foo" Demo.w0 _
                  [("hdmusiclogo", PList [Demo.asset "http://img/hd.png"])]
                  (inject_Z 0) eq_refl eq_refl eq_refl eq_refl eq_refl)).
  reflexivity.
Defined.

(** A first HD asset with an empty URL, for the artist Foo. *)
Lemma falsy_url_is_recorded_as_not_found_witness :
  @process_artist Demo.runtime Demo.cfg Demo.foo
    (Demo.oracle_ok Demo.payload_empty_url) Demo.w0
  = ({| stats := append_not_found "Foo | Success (HD) - Match: 100.0%" stats0;
        fs := ∅;
        trace := [Sleep;
                  HttpGet (PStr "https://webservice.fanart.tv/v3/music/1234?api_key=KEY") 10;
                  Log LvWarning (MsgMissing "Foo" "Success (HD) - Match: 100.0%")] |},
     inr tt).
Proof.
  assert (inject_Z (FUZZY_THRESHOLD Demo.cfg) <= inject_Z 100)%Q as Hacc
    by (vm_compute; discriminate).
  exact (@falsy_url_is_recorded_as_not_found Demo.runtime Demo.cfg Demo.foo
           (Demo.oracle_ok Demo.payload_empty_url) Demo.w0 "1234" _
           Demo.payload_empty_url (PStr "Foo") (inject_Z 100)
           [("id", PStr "1"); ("url", PStr "")] [] (PStr "")
           eq_refl eq_refl ltac:(discriminate) eq_refl eq_refl eq_refl eq_refl
           eq_refl Hacc eq_refl eq_refl eq_refl).
Defined.

(** The download of Foo's logo answers 404. *)
Lemma failed_download_is_retried_witness :
  artist_dir Demo.foo
  ∈ fs (@process_artist Demo.runtime Demo.cfg Demo.foo Demo.oracle_bad_image Demo.w0).1
  /\ (img_path Demo.foo
      ∉ fs (@process_artist Demo.runtime Demo.cfg Demo.foo Demo.oracle_bad_image Demo.w0).1)
  /\ skips Demo.cfg Demo.foo
       (@process_artist Demo.runtime Demo.cfg Demo.foo Demo.oracle_bad_image Demo.w0).1
     = false
  /\ stats (@process_artist Demo.runtime Demo.cfg Demo.foo Demo.oracle_bad_image Demo.w0).1
     = stats Demo.w0.
Proof.
  apply (@failed_download_is_retried Demo.runtime Demo.cfg Demo.foo
           Demo.oracle_bad_image Demo.w0
           "1234" (PStr "http://img/hd.png") "Success (HD) - Match: 100.0%"
           (demo_foo_resolved Demo.oracle_bad_image eq_refl) eq_refl eq_refl eq_refl).
  apply not_elem_of_empty.
Defined.

(** The save of Foo's image fails and leaves a file. *)
Lemma leftover_file_blocks_retry_witness :
  stats (@process_artist Demo.runtime Demo.cfg Demo.foo Demo.oracle_bad_save_left Demo.w0).1
  = stats Demo.w0
  /\ img_path Demo.foo
     ∈ fs (@process_artist Demo.runtime Demo.cfg Demo.foo
             Demo.oracle_bad_save_left Demo.w0).1.
Proof.
  pose proof (@leftover_file_blocks_retry Demo.runtime Demo.cfg Demo.foo
                Demo.oracle_bad_save_left Demo.w0
                "1234" (PStr "http://img/hd.png") "Success (HD) - Match: 100.0%"
                _ Demo.logo (Raised "disk full")
                (demo_foo_resolved Demo.oracle_bad_save_left eq_refl)
                eq_refl eq_refl eq_refl eq_refl eq_refl eq_refl eq_refl)
    as (Hst & Hin & _).
  split; [exact Hst | exact Hin].
Defined.

(** A report of two entries. *)
Lemma report_lines_are_the_not_found_list_witness :
  Str.split Report.newline (Report.missing_report "20240101_120000" Demo.stats_two_missing)
  = ["Artists missing logos as of 20240101_120000";
     "==================================================";
     "Foo | Connection Error: timed out";
     "Bar | Plex has no MusicBrainz ID for this artist"].
Proof.
  apply (report_lines_are_the_not_found_list "20240101_120000" Demo.stats_two_missing).
  - apply (bool_decide_eq_false_1 (_ ∈ _)). vm_compute. reflexivity.
  - repeat constructor; apply (bool_decide_eq_false_1 (_ ∈ _)); vm_compute; reflexivity.
Defined.
